(** * tgbot: a Telegram greeting bot on Cloudflare Workers (Hono)

    A shallow embedding of the worker ([app.get('/')], the cold-start
    middleware, [app.post('/webhook')], [app.get('/set-webhook')],
    [buildGreeting], [configureWebhook]) and of the secret-enforcement check
    of [scripts/check-status.mjs], followed by the properties the
    specification states about them. *)

From Stdlib Require Import List String Ascii NArith ZArith Bool Lia.
From Stdlib Require Import Numbers.DecimalString.
From Stdlib Require Numbers.HexadecimalString.
Import ListNotations.

Set Implicit Arguments.

(** ** JavaScript strings

    A JavaScript string is a sequence of UTF-16 code units.  [===] on two
    strings compares the sequences, [s ? a : b] and [if (s)] test for
    non-emptiness, and [String.prototype.trim] strips the code units of the
    ECMAScript [WhiteSpace] and [LineTerminator] productions at both ends. *)
Module JS.

Definition jsstring := list N.

(** An ASCII literal of the source, as code units. *)
Definition lit (s : string) : jsstring :=
  List.map N_of_ascii (list_ascii_of_string s).

(** The double quote, which [JSON.stringify] writes around keys. *)
Definition dquote : jsstring := [34%N].

Fixpoint str_eqb (a b : jsstring) : bool :=
  match a, b with
  | [], [] => true
  | x :: a', y :: b' => N.eqb x y && str_eqb a' b'
  | _, _ => false
  end.

(** [s] in a boolean position. *)
Definition truthy (s : jsstring) : bool :=
  match s with
  | [] => false
  | _ :: _ => true
  end.

(** [o] in a boolean position, for a value that is a string or
    [undefined]. *)
Definition truthy_opt (o : option jsstring) : bool :=
  match o with
  | Some s => truthy s
  | None => false
  end.

(** [o || d] for a string-or-undefined [o] and a string [d]. *)
Definition or_else (o : option jsstring) (d : jsstring) : jsstring :=
  match o with
  | Some (c :: s) => c :: s
  | _ => d
  end.

(** WhiteSpace: TAB, VT, FF, SP, NBSP, ZWNBSP and the category Zs;
    LineTerminator: LF, CR, LS, PS. *)
Definition isWhiteSpace (c : N) : bool :=
  (N.eqb c 9 || N.eqb c 10 || N.eqb c 11 || N.eqb c 12 || N.eqb c 13
   || N.eqb c 32 || N.eqb c 160 || N.eqb c 5760
   || (N.leb 8192 c && N.leb c 8202)
   || N.eqb c 8232 || N.eqb c 8233 || N.eqb c 8239 || N.eqb c 8287
   || N.eqb c 12288 || N.eqb c 65279)%bool.

Fixpoint trimStart (s : jsstring) : jsstring :=
  match s with
  | [] => []
  | c :: s' => if isWhiteSpace c then trimStart s' else s
  end.

Definition trimEnd (s : jsstring) : jsstring :=
  rev (trimStart (rev s)).

Definition trim (s : jsstring) : jsstring :=
  trimEnd (trimStart s).

(** [parts.join(sep)] on an array of strings. *)
Fixpoint join (sep : jsstring) (parts : list jsstring) : jsstring :=
  match parts with
  | [] => []
  | [p] => p
  | p :: rest => p ++ sep ++ join sep rest
  end.

(** [String.prototype.toLowerCase].  Only A-Z change among the code units
    below 128, and no code unit outside that range lowers to one of the
    letters of [true], which is all the worker compares the result with. *)
Definition lowerUnit (c : N) : N :=
  if (N.leb 65 c && N.leb c 90)%bool then (c + 32)%N else c.

Definition toLowerCase (s : jsstring) : jsstring :=
  List.map lowerUnit s.

(** [String(n)] for a non-negative integer below 10^21. *)
Definition ofN (n : N) : jsstring :=
  lit (NilZero.string_of_uint (N.to_uint n)).

(** [s.replace(/\/$/, '')]: drop one trailing slash. *)
Definition dropTrailingSlash (s : jsstring) : jsstring :=
  match rev s with
  | 47%N :: r => rev r
  | _ => s
  end.

Definition startsWS (s : jsstring) : bool :=
  match s with
  | c :: _ => isWhiteSpace c
  | [] => false
  end.

Definition endsWS (s : jsstring) : bool :=
  startsWS (rev s).

End JS.
Import JS.

(** ** Telegram types (the subset the worker declares) *)

Record TelegramUser := {
  user_id : Z;
  is_bot : bool;
  first_name : option jsstring;
  last_name : option jsstring;
  username : option jsstring
}.

Record TelegramChat := {
  chat_id : Z;
  chat_type : jsstring
}.

(** [chat] is declared required, but the receiver tests [!message.chat]
    before it uses it, so a decoded message may come without one. *)
Record TelegramMessage := {
  message_id : Z;
  date : Z;
  chat : option TelegramChat;
  from : option TelegramUser;
  text : option jsstring
}.

Record TelegramUpdate := {
  update_id : Z;
  message : option TelegramMessage;
  edited_message : option TelegramMessage
}.

(** ** buildGreeting *)

(** [if (field) parts.push(tok)]. *)
Definition push_if (field : option jsstring) (tok : jsstring -> jsstring)
    (parts : list jsstring) : list jsstring :=
  match field with
  | Some s => if truthy s then parts ++ [tok s] else parts
  | None => parts
  end.

Definition greetingParts (user : TelegramUser) : list jsstring :=
  let parts := [] in
  let parts := push_if (username user) (fun u => lit "@" ++ u) parts in
  let parts := push_if (first_name user) (fun f => f) parts in
  let parts := push_if (last_name user) (fun l => l) parts in
  parts.

Definition buildGreeting (user : option TelegramUser) : jsstring :=
  match user with
  | None => lit "Hello there"
  | Some u =>
      let info := trim (join (lit " ") (greetingParts u)) in
      if truthy info then lit "Hello " ++ info else lit "Hello there"
  end.

(** The greeting as the specification words it: a field that is present
    contributes its token, the tokens are joined by single spaces and
    prefixed; the default is used when the sender or all three fields are
    absent. *)
Definition spec_tokens (u : TelegramUser) : list jsstring :=
  (match username u with Some n => [lit "@" ++ n] | None => [] end)
  ++ (match first_name u with Some f => [f] | None => [] end)
  ++ (match last_name u with Some l => [l] | None => [] end).

Definition spec_greeting (sender : option TelegramUser) : jsstring :=
  match sender with
  | None => lit "Hello there"
  | Some u =>
      match spec_tokens u with
      | [] => lit "Hello there"
      | toks => lit "Hello " ++ join (lit " ") toks
      end
  end.

(** A field the greeting can take as it is: absent, or a non-empty string
    with no white space at either end. *)
Definition tidy (s : jsstring) : Prop :=
  s <> [] /\ startsWS s = false /\ endsWS s = false.

Definition tidy_field (o : option jsstring) : Prop :=
  match o with
  | Some s => tidy s
  | None => True
  end.

Definition tidy_user (u : TelegramUser) : Prop :=
  tidy_field (username u) /\ tidy_field (first_name u)
  /\ tidy_field (last_name u).

Definition mkUser (un fn ln : option jsstring) : TelegramUser :=
  {| user_id := 1; is_bot := false;
     first_name := fn; last_name := ln; username := un |}.

(** ** Effects of the worker

    Handlers are [async] functions that log to the console, read the request
    body, hand background work to [executionCtx.waitUntil] and may throw.  A
    computation yields the events it emitted, in order, and either a value
    or the exception that ended it. *)

Inductive exn :=
| SyntaxError      (* the body is not JSON *)
| TypeError        (* a property of null, a body read twice *)
| NetworkError.    (* fetch rejected *)

(** An outbound request to the Bot API: [fetch(url, { method: 'POST',
    headers, body: JSON.stringify(payload) })]. *)
Inductive payload :=
| DeleteWebhookBody (drop_pending_updates : bool)
| SetWebhookBody (hook_url : jsstring) (secret_token : option jsstring)
    (max_connections : N) (allowed_updates : list jsstring).

Record fetchReq := {
  url : jsstring;
  body_json : payload
}.

(** Background work handed to [waitUntil]. *)
Inductive task :=
| SendMessageTask (token : jsstring) (chatId : Z) (greeting : jsstring)
| WebhookInitTask.

Inductive event :=
| WarnWebhookRejected (reqId : jsstring)
| ErrorInvalidJson (reqId : jsstring)
| LogNoMessagePayload (reqId : jsstring)
| LogUpdateProcessed (reqId : jsstring) (chatId : Z)
| WarnDeleteWebhookNotOk (status : N)
| WarnDeleteWebhookError (e : exn)
| WarnConfigureSkipped
| ErrorSetWebhookFailed (status : N)
| LogWebhookConfigured
| ErrorSetWebhookError (e : exn)
| ErrorWebhookInitFailed (e : exn)
| ErrorFailedToSetWebhook (status : N)
| ReadBody                      (* c.req.json() *)
| Fetch (r : fetchReq)
| WaitUntil (t : task).

Inductive result (A : Type) :=
| Ok (a : A)
| Throw (e : exn).
Arguments Ok {A} a.
Arguments Throw {A} e.

Definition Eff (A : Type) : Type := list event * result A.

Definition ret {A} (a : A) : Eff A := ([], Ok a).

Definition bind {A B} (m : Eff A) (k : A -> Eff B) : Eff B :=
  match m with
  | (evs, Ok a) => let (evs', r) := k a in (evs ++ evs', r)
  | (evs, Throw e) => (evs, Throw e)
  end.

Definition emit (e : event) : Eff unit := ([e], Ok tt).

Definition throw {A} (e : exn) : Eff A := ([], Throw e).

(** [try { m } catch (err) { h err }]. *)
Definition try_catch {A} (m : Eff A) (h : exn -> Eff A) : Eff A :=
  match m with
  | (evs, Ok a) => (evs, Ok a)
  | (evs, Throw e) => let (evs', r) := h e in (evs ++ evs', r)
  end.

Declare Scope eff_scope.
Delimit Scope eff_scope with eff.
Notation "x <- m ;; k" := (bind m (fun x => k))
  (at level 61, m at next level, right associativity) : eff_scope.
Notation "m ;;; k" := (bind m (fun _ => k))
  (at level 61, right associativity) : eff_scope.

Definition events {A} (m : Eff A) : list event := fst m.
Definition outcome {A} (m : Eff A) : result A := snd m.

(** ** The worker *)

Record Bindings := {
  BOT_API_TOKEN : jsstring;
  WEBHOOK_SECRET_TOKEN : option jsstring;
  BASE_URL : option jsstring;
  AUTO_WEBHOOK_INIT : option jsstring
}.

Inductive httpMethod := GET | POST.

(** An incoming request: its method and path, the value of
    [c.req.header('X-Telegram-Bot-Api-Secret-Token')] and its body text. *)
Record Request := {
  req_method : httpMethod;
  req_path : jsstring;
  secret_header : option jsstring;
  req_body : jsstring
}.

Inductive respBody :=
| Text (s : jsstring)                       (* c.text(s) *)
| JsonError (error : jsstring)              (* { ok: false, error } *)
| JsonFailure (status : N)                  (* { ok: false, status, data } *)
| JsonResult.                               (* { ok: true, result: data } *)

Record Response := {
  status : N;
  body : respBody
}.

(** [c.text(s)] and [c.text(s, code)]. *)
Definition c_text (s : jsstring) : Response := {| status := 200; body := Text s |}.
Definition c_text_status (s : jsstring) (code : N) : Response :=
  {| status := code; body := Text s |}.

Definition TELEGRAM_API (token : jsstring) : jsstring :=
  lit "https://api.telegram.org/bot" ++ token.

(** What the network answers to a [fetch]: [None] when the promise rejects,
    else a response with [res.ok], [res.status], what [res.json()] gives and
    what a later [res.text()] gives ([None] when it rejects). *)
Inductive jsonOutcome :=
| JsonFails
| JsonNull
| JsonData (ok : bool).

Record fetchResponse := {
  res_ok : bool;
  res_status : N;
  res_json : jsonOutcome;
  res_text : option jsstring
}.

Definition network := fetchReq -> option fetchResponse.

Local Open Scope eff_scope.

(** [await fetch(...)]. *)
Definition fetch (net : network) (r : fetchReq) : Eff fetchResponse :=
  emit (Fetch r) ;;;
  match net r with
  | Some res => ret res
  | None => throw NetworkError
  end.

(** The value of [data] after
    [await res.json().catch(async () => ({ ok: false, description: await res.text() }))]:
    [null], or an object of which only the truthiness of [.ok] is used. *)
Inductive jsdata :=
| DNull
| DObj (ok : bool).

Definition read_data (res : fetchResponse) : Eff jsdata :=
  match res_json res with
  | JsonData b => ret (DObj b)
  | JsonNull => ret DNull
  | JsonFails =>
      match res_text res with
      | Some _ => ret (DObj false)
      | None => throw TypeError
      end
  end.

(** [!res.ok || !data.ok]; [data.ok] is only evaluated when [res.ok]. *)
Definition not_ok (res : fetchResponse) (data : jsdata) : Eff bool :=
  if negb (res_ok res) then ret true
  else match data with
       | DObj b => ret (negb b)
       | DNull => throw TypeError
       end.

Definition configureWebhook (env : Bindings) (net : network) : Eff unit :=
  let token := BOT_API_TOKEN env in
  let baseUrl := option_map dropTrailingSlash (BASE_URL env) in
  let secret := WEBHOOK_SECRET_TOKEN env in
  try_catch
    (delRes <- fetch net {| url := TELEGRAM_API token ++ lit "/deleteWebhook";
                            body_json := DeleteWebhookBody true |} ;;
     delData <- read_data delRes ;;
     failed <- not_ok delRes delData ;;
     if failed then emit (WarnDeleteWebhookNotOk (res_status delRes))
     else ret tt)
    (fun err => emit (WarnDeleteWebhookError err)) ;;;
  match baseUrl with
  | Some (c :: b) =>
      try_catch
        (setRes <- fetch net
           {| url := TELEGRAM_API token ++ lit "/setWebhook";
              body_json := SetWebhookBody ((c :: b) ++ lit "/webhook") secret 40
                             [lit "message"; lit "edited_message"] |} ;;
         setData <- read_data setRes ;;
         failed <- not_ok setRes setData ;;
         if failed then emit (ErrorSetWebhookFailed (res_status setRes))
         else emit LogWebhookConfigured)
        (fun err => emit (ErrorSetWebhookError err))
  | _ => emit WarnConfigureSkipped
  end.

(** [a !== b] on values that are strings or [undefined]. *)
Definition strict_neq (a b : option jsstring) : bool :=
  match a, b with
  | Some x, Some y => negb (str_eqb x y)
  | None, None => false
  | _, _ => true
  end.

(** What [c.req.json<TelegramUpdate>()] resolves to: the JSON value [null],
    of which no property can be read, or a value read at the declared type
    (a property that is absent, [null] or not there to be read is
    [undefined]). *)
Inductive decoded :=
| NullBody
| Update (u : TelegramUpdate).

Section Worker.

(** [JSON.parse] behind [c.req.json<TelegramUpdate>()]: [None] when the body
    text is not JSON. *)
Variable parseJson : jsstring -> option decoded.

Definition req_json (req : Request) : Eff decoded :=
  emit ReadBody ;;;
  match parseJson (req_body req) with
  | Some u => ret u
  | None => throw SyntaxError
  end.

(** [app.post('/webhook', ...)]; [reqId] is what [getRequestId()] drew. *)
Definition webhook (reqId : jsstring) (env : Bindings) (req : Request)
    : Eff Response :=
  let secretHeader := secret_header req in
  let configuredSecret := WEBHOOK_SECRET_TOKEN env in
  if truthy_opt configuredSecret && strict_neq secretHeader configuredSecret
  then
    emit (WarnWebhookRejected reqId) ;;;
    ret (c_text_status (lit "unauthorized") 401)
  else
    parsed <- try_catch
                (u <- req_json req ;; ret (inr u))
                (fun err =>
                   emit (ErrorInvalidJson reqId) ;;;
                   ret (inl (c_text_status (lit "bad request") 400))) ;;
    match parsed with
    | inl resp => ret resp
    | inr NullBody => throw TypeError      (* update.message of null *)
    | inr (Update update) =>
        let message :=
          match message update with
          | Some m => Some m
          | None => edited_message update
          end in
        let ack := emit (LogNoMessagePayload reqId) ;;; ret (c_text (lit "ok")) in
        match message with
        | None => ack
        | Some m =>
            match chat m with
            | None => ack
            | Some ch =>
                let greeting := buildGreeting (from m) in
                let chatId := chat_id ch in
                emit (WaitUntil (SendMessageTask (BOT_API_TOKEN env) chatId greeting)) ;;;
                emit (LogUpdateProcessed reqId chatId) ;;;
                ret (c_text (lit "ok"))
            end
        end
    end.

(** [app.get('/set-webhook', ...)]. *)
Definition set_webhook (env : Bindings) (net : network) : Eff Response :=
  let token := BOT_API_TOKEN env in
  let secret := WEBHOOK_SECRET_TOKEN env in
  match BASE_URL env with
  | Some (c :: b) =>
      let webhookUrl := dropTrailingSlash (c :: b) ++ lit "/webhook" in
      res <- fetch net
        {| url := TELEGRAM_API token ++ lit "/setWebhook";
           body_json := SetWebhookBody webhookUrl secret 40
                          [lit "message"; lit "edited_message"] |} ;;
      data <- read_data res ;;
      failed <- not_ok res data ;;
      if failed then
        emit (ErrorFailedToSetWebhook (res_status res)) ;;;
        ret {| status := 500; body := JsonFailure (res_status res) |}
      else ret {| status := 200; body := JsonResult |}
  | _ => ret {| status := 400; body := JsonError (lit "BASE_URL not configured") |}
  end.

(** The routes of [app]; [None] when none matches. *)
Definition route (reqId : jsstring) (env : Bindings) (net : network)
    (req : Request) : option (Eff Response) :=
  match req_method req with
  | GET =>
      if str_eqb (req_path req) (lit "/") then Some (ret (c_text (lit "OK")))
      else if str_eqb (req_path req) (lit "/set-webhook")
           then Some (set_webhook env net)
           else None
  | POST =>
      if str_eqb (req_path req) (lit "/webhook")
      then Some (webhook reqId env req)
      else None
  end.

(** *** Process state

    [webhookInitPromise] is the only module-level variable.  The call to
    [configureWebhook] runs up to its first [await], the [fetch] of
    deleteWebhook, and returns a promise; while that is in flight the
    promise is pending on what the call goes on to write and on its outcome;
    when it settles, a rejection runs the [.catch] callback, which logs and
    clears the variable. *)
Inductive promiseState :=
| Pending (later : list event) (r : result unit)
| Fulfilled.

Record process := {
  webhookInitPromise : option promiseState;
  configureCalls : nat;          (* invocations of configureWebhook so far *)
  console : list event
}.

Definition cold_start : process :=
  {| webhookInitPromise := None; configureCalls := 0; console := [] |}.

Definition auto_init_enabled (env : Bindings) : bool :=
  str_eqb (toLowerCase (or_else (AUTO_WEBHOOK_INIT env) [])) (lit "true").

(** The events of an [async] call up to its first [fetch], which is where
    it first waits, and those after it. *)
Fixpoint until_first_fetch (evs : list event) : list event * list event :=
  match evs with
  | [] => ([], [])
  | Fetch r :: rest => ([Fetch r], rest)
  | e :: rest => let (before, after) := until_first_fetch rest in
                 (e :: before, after)
  end.

(** [app.use('*', ...)], up to its [return next()]. *)
Definition middleware (env : Bindings) (net : network) (p : process)
    : process :=
  let enabled := auto_init_enabled env in
  if enabled && negb (match webhookInitPromise p with Some _ => true | None => false end)
  then
    let call := configureWebhook env net in
    let (now, later) := until_first_fetch (events call) in
    {| webhookInitPromise := Some (Pending later (outcome call));
       configureCalls := S (configureCalls p);
       console := console p ++ now ++ [WaitUntil WebhookInitTask] |}
  else p.

(** The pending initializer settles; by then it has written the rest of its
    console lines. *)
Definition settle (p : process) : process :=
  match webhookInitPromise p with
  | Some (Pending later (Throw err)) =>
      {| webhookInitPromise := None;
         configureCalls := configureCalls p;
         console := console p ++ later ++ [ErrorWebhookInitFailed err] |}
  | Some (Pending later (Ok _)) =>
      {| webhookInitPromise := Some Fulfilled;
         configureCalls := configureCalls p;
         console := console p ++ later |}
  | _ => p
  end.

Inductive input :=
| Incoming (env : Bindings) (net : network) (reqId : jsstring) (req : Request)
| InitSettles.

Inductive reply :=
| Replied (r : result Response)
| NotFound.

(** Handlers run in the order they were registered: [app.get('/')] comes
    before [app.use('*')] and answers without calling [next()], so a GET of
    [/] never enters the middleware; every other request does. *)
Definition reaches_middleware (req : Request) : bool :=
  match req_method req with
  | GET => negb (str_eqb (req_path req) (lit "/"))
  | POST => true
  end.

Definition step (p : process) (i : input) : process * option reply :=
  match i with
  | Incoming env net reqId req =>
      let p1 := if reaches_middleware req then middleware env net p else p in
      match route reqId env net req with
      | Some h =>
          ({| webhookInitPromise := webhookInitPromise p1;
              configureCalls := configureCalls p1;
              console := console p1 ++ events h |},
           Some (Replied (outcome h)))
      | None => (p1, Some NotFound)
      end
  | InitSettles => (settle p, None)
  end.

Fixpoint run (p : process) (inputs : list input) : process :=
  match inputs with
  | [] => p
  | i :: rest => run (fst (step p i)) rest
  end.

End Worker.

(** ** The status script: [checkWebhookSecret] *)
Module Status.

Record fetchOptions := {
  method : httpMethod;
  headers : list (jsstring * jsstring);
  body : option jsstring
}.

(** What [fetchJson] returns; [status] is 0 when the call failed. *)
Record fetchResult := {
  ok : bool;
  status : N;
  data : jsstring
}.

Record checkResult := {
  check_ok : bool;
  details : jsstring
}.

(** [JSON.stringify({ update_id: n })]. *)
Definition stringify_update_id (n : N) : jsstring :=
  lit "{" ++ dquote ++ lit "update_id" ++ dquote ++ lit ":" ++ ofN n ++ lit "}".

Definition probe (secretValue : jsstring) (n : N) : fetchOptions :=
  {| method := POST;
     headers := [(lit "Content-Type", lit "application/json");
                 (lit "X-Telegram-Bot-Api-Secret-Token", secretValue)];
     body := Some (stringify_update_id n) |}.

Section Check.

(** The service under test answers the two calls in turn. *)
Variable World : Type.
Variable fetchJson : jsstring -> fetchOptions -> World -> fetchResult * World.

Definition good_call (baseUrl : jsstring) (secret : option jsstring)
    (w : World) : fetchResult * World :=
  fetchJson (baseUrl ++ lit "/webhook") (probe (or_else secret []) 1) w.

Definition bad_call (baseUrl : jsstring) (w : World) : fetchResult * World :=
  fetchJson (baseUrl ++ lit "/webhook") (probe (lit "__invalid__") 2) w.

Definition checkWebhookSecret (baseUrl : jsstring) (secret : option jsstring)
    (w : World) : checkResult * World :=
  if negb (truthy baseUrl)
  then ({| check_ok := false; details := lit "BASE_URL is missing" |}, w)
  else
    let (good, w1) := good_call baseUrl secret w in
    let (bad, w2) := bad_call baseUrl w1 in
    let enforced :=
      if truthy_opt secret
      then N.eqb (status bad) 401 && N.eqb (status good) 200
      else N.eqb (status good) 200 && N.eqb (status bad) 200 in
    let details :=
      lit "good=" ++ ofN (status good) ++ lit "; bad=" ++ ofN (status bad)
      ++ lit "; enforced=" ++ (if truthy_opt secret then lit "yes" else lit "no") in
    ({| check_ok := enforced; details := details |}, w2).

End Check.

End Status.

(** Sample senders. *)
Definition abc : TelegramUser :=
  mkUser (Some (lit "a")) (Some (lit "B")) (Some (lit "C")).

Definition bob : TelegramUser :=
  mkUser (Some (lit "bob")) (Some (lit "Bob")) None.

(** A first name with a leading space. *)
Definition padded : TelegramUser :=
  mkUser None (Some (lit " B")) None.

(** An update that carries no message payload. *)
Definition bare_update (n : Z) : TelegramUpdate :=
  {| update_id := n; message := None; edited_message := None |}.

(** A decoder that reads every body as [u]. *)
Definition parseAs (u : TelegramUpdate) (_ : jsstring) : option decoded :=
  Some (Update u).

(** The two calls of [configureWebhook]. *)
Definition deleteWebhook_call (env : Bindings) : fetchReq :=
  {| url := TELEGRAM_API (BOT_API_TOKEN env) ++ lit "/deleteWebhook";
     body_json := DeleteWebhookBody true |}.

Definition setWebhook_call (env : Bindings) (baseUrl : jsstring) : fetchReq :=
  {| url := TELEGRAM_API (BOT_API_TOKEN env) ++ lit "/setWebhook";
     body_json := SetWebhookBody (baseUrl ++ lit "/webhook")
                    (WEBHOOK_SECRET_TOKEN env) 40
                    [lit "message"; lit "edited_message"] |}.

(** The latch and the call counter agree: nothing has run and the variable
    is null, or one call has run and the variable holds its promise, which
    can only be fulfilled. *)
Definition latch_ok (p : process) : Prop :=
  (configureCalls p = 0 /\ webhookInitPromise p = None)
  \/ (configureCalls p = 1
      /\ ((exists later, webhookInitPromise p = Some (Pending later (Ok tt)))
          \/ webhookInitPromise p = Some Fulfilled)).

(** ** A simulated deployment

    A stand-in for [JSON.parse] that knows the two probe bodies of the status
    script, and the worker's receiver put behind the status script's
    [fetchJson], so that both programs can be run against each other. *)
Module Demo.

Definition parseProbe (body : jsstring) : option decoded :=
  if str_eqb body (Status.stringify_update_id 1) then Some (Update (bare_update 1))
  else if str_eqb body (Status.stringify_update_id 2) then Some (Update (bare_update 2))
  else if str_eqb body (lit "null") then Some NullBody
  else None.

Definition env_with_secret (secret : option jsstring) : Bindings :=
  {| BOT_API_TOKEN := lit "123:abc";
     WEBHOOK_SECRET_TOKEN := secret;
     BASE_URL := Some (lit "https://bot.example.workers.dev");
     AUTO_WEBHOOK_INIT := Some (lit "TRUE") |}.

Fixpoint header_of (name : jsstring) (hs : list (jsstring * jsstring))
    : option jsstring :=
  match hs with
  | [] => None
  | (k, v) :: rest => if str_eqb k name then Some v else header_of name rest
  end.

Definition post_webhook (secret : option jsstring) (bodyText : jsstring)
    : Request :=
  {| req_method := POST; req_path := lit "/webhook";
     secret_header := secret; req_body := bodyText |}.

Definition serve (env : Bindings) (_ : jsstring) (opts : Status.fetchOptions)
    (w : unit) : Status.fetchResult * unit :=
  let req :=
    post_webhook
      (header_of (lit "X-Telegram-Bot-Api-Secret-Token") (Status.headers opts))
      (or_else (Status.body opts) []) in
  match outcome (webhook parseProbe (lit "req-1") env req) with
  | Ok r =>
      ({| Status.ok := N.leb 200 (status r) && N.ltb (status r) 300;
          Status.status := status r;
          Status.data := match body r with Text s => s | _ => [] end |}, w)
  | Throw _ =>
      ({| Status.ok := false; Status.status := 500;
          Status.data := lit "Internal Server Error" |}, w)
  end.

Definition msg_from_bob : TelegramMessage :=
  {| message_id := 10; date := 1700000000;
     chat := Some {| chat_id := 42; chat_type := lit "private" |};
     from := Some bob; text := Some (lit "hi") |}.

Definition edited_from_abc : TelegramMessage :=
  {| message_id := 9; date := 1700000001;
     chat := Some {| chat_id := 7; chat_type := lit "group" |};
     from := Some abc; text := Some (lit "edited") |}.

Definition msg_without_chat : TelegramMessage :=
  {| message_id := 11; date := 1700000002;
     chat := None; from := Some bob; text := None |}.

Definition update_with_both : TelegramUpdate :=
  {| update_id := 3; message := Some msg_from_bob;
     edited_message := Some edited_from_abc |}.

Definition update_without_chat : TelegramUpdate :=
  {| update_id := 4; message := Some msg_without_chat;
     edited_message := Some edited_from_abc |}.

(** A network on which every Bot API call fails. *)
Definition offline : network := fun _ => None.

(** A network on which every Bot API call succeeds. *)
Definition online : network := fun _ =>
  Some {| res_ok := true; res_status := 200; res_json := JsonData true;
          res_text := None |}.

End Demo.

(** [env] with another value for [WEBHOOK_SECRET_TOKEN]. *)
Definition with_secret (env : Bindings) (secret : option jsstring) : Bindings :=
  {| BOT_API_TOKEN := BOT_API_TOKEN env;
     WEBHOOK_SECRET_TOKEN := secret;
     BASE_URL := BASE_URL env;
     AUTO_WEBHOOK_INIT := AUTO_WEBHOOK_INIT env |}.

(** A request passes the secret check when no secret is configured (the
    variable is unset or empty) or its header carries the configured one. *)
Definition authorized (env : Bindings) (req : Request) : Prop :=
  truthy_opt (WEBHOOK_SECRET_TOKEN env) = false
  \/ secret_header req = WEBHOOK_SECRET_TOKEN env.

(** The message payload the receiver works on. *)
Definition selected (u : TelegramUpdate) : option TelegramMessage :=
  match message u with
  | Some m => Some m
  | None => edited_message u
  end.

Definition ok200 : Response := {| status := 200; body := Text (lit "ok") |}.

(** What the receiver does once it has settled on the payload [m]. *)
Definition reply_to (reqId : jsstring) (env : Bindings) (m : TelegramMessage)
    : Eff Response :=
  match chat m with
  | Some ch =>
      ([ReadBody;
        WaitUntil (SendMessageTask (BOT_API_TOKEN env) (chat_id ch)
                     (buildGreeting (from m)));
        LogUpdateProcessed reqId (chat_id ch)], Ok ok200)
  | None => ([ReadBody; LogNoMessagePayload reqId], Ok ok200)
  end.

(** The tokens of a greeting: one per non-empty field, in order. *)
Definition nonempty (o : option jsstring) : option jsstring :=
  match o with
  | Some (c :: s) => Some (c :: s)
  | _ => None
  end.

Definition greeting_tokens (u : TelegramUser) : list jsstring :=
  (match nonempty (username u) with Some n => [lit "@" ++ n] | None => [] end)
  ++ (match nonempty (first_name u) with Some f => [f] | None => [] end)
  ++ (match nonempty (last_name u) with Some l => [l] | None => [] end).

(** ** The [.env] reader of the scripts

    [loadEnv] is the same function in [check-status.mjs] and in the
    post-deploy trigger script.  [file] is what the path holds: [None] when
    [fs.existsSync] is false, else the decoded text. *)
Module Env.

(** [s.startsWith(c)] and [s.endsWith(c)] for a one-unit string [c]. *)
Definition starts_with (c : N) (s : jsstring) : bool :=
  match s with
  | x :: _ => N.eqb x c
  | [] => false
  end.

Definition ends_with (c : N) (s : jsstring) : bool :=
  starts_with c (rev s).

(** [s.indexOf(c)], [None] for -1. *)
Fixpoint indexOf (c : N) (s : jsstring) : option nat :=
  match s with
  | [] => None
  | x :: s' => if N.eqb x c then Some 0 else option_map S (indexOf c s')
  end.

(** [s.slice(1, -1)]. *)
Definition slice_inner (s : jsstring) : jsstring :=
  removelast (tl s).

Definition cons_first (c : N) (ls : list jsstring) : list jsstring :=
  match ls with
  | l :: rest => (c :: l) :: rest
  | [] => [[c]]
  end.

(** [content.split(/\r?\n/)]: a line ends at LF, or at CR when LF follows. *)
Fixpoint split_lines (s : jsstring) : list jsstring :=
  match s with
  | [] => [[]]
  | c :: rest =>
      if N.eqb c 10 then [] :: split_lines rest
      else
        match rest with
        | d :: rest' =>
            if N.eqb c 13 && N.eqb d 10 then [] :: split_lines rest'
            else cons_first c (split_lines rest)
        | [] => [[c]]
        end
  end.

(** The object [env]: its own properties, the latest assignment first. *)
Definition envobj := list (jsstring * jsstring).

(** [env[key] = val].  Assigning a string to [__proto__] goes to the setter
    of [Object.prototype], which ignores it. *)
Definition assign (key val : jsstring) (env : envobj) : envobj :=
  if str_eqb key (lit "__proto__") then env else (key, val) :: env.

(** The own property [key] of [env]; the names the scripts read are not
    inherited ones, so this is [env.KEY]. *)
Fixpoint get (env : envobj) (key : jsstring) : option jsstring :=
  match env with
  | [] => None
  | (k, v) :: rest => if str_eqb k key then Some v else get rest key
  end.

Definition quoted (val : jsstring) : bool :=
  (starts_with 34 val && ends_with 34 val)
  || (starts_with 39 val && ends_with 39 val).

(** What one line assigns: [None] where the loop body ends in [continue]. *)
Definition parse_line (line : jsstring) : option (jsstring * jsstring) :=
  let trimmed := trim line in
  if negb (truthy trimmed) || starts_with 35 trimmed then None
  else
    match indexOf 61 trimmed with
    | None => None
    | Some idx =>
        let key := trim (firstn idx trimmed) in
        let val := trim (skipn (S idx) trimmed) in
        let val := if quoted val then slice_inner val else val in
        Some (key, val)
    end.

(** One turn of the loop. *)
Definition loadEnv_step (env : envobj) (line : jsstring) : envobj :=
  match parse_line line with
  | Some (key, val) => assign key val env
  | None => env
  end.

Definition loadEnv (file : option jsstring) : envobj :=
  match file with
  | None => []
  | Some content => fold_left loadEnv_step (split_lines content) []
  end.

(** Strings of white space only. *)
Definition blank (s : jsstring) : Prop := Forall (fun c => isWhiteSpace c = true) s.

(** Strings with no white space at either end (the empty one included). *)
Definition trimmed (s : jsstring) : Prop :=
  startsWS s = false /\ endsWS s = false.

(** Splitting at LF alone. *)
Fixpoint split_lf (s : jsstring) : list jsstring :=
  match s with
  | [] => [[]]
  | c :: rest => if N.eqb c 10 then [] :: split_lf rest
                 else cons_first c (split_lf rest)
  end.

(** Lines of [split_lf] are those of [split_lines], some with one CR more
    at the end. *)
Definition cr_more (l l' : jsstring) : Prop := l' = l \/ l' = l ++ [13%N].

End Env.

(** ** getRequestId

    [randomUUID] is [None] when [crypto.randomUUID] is not a function, else
    the identifier it returned; [random] is what [crypto.getRandomValues]
    wrote into the 16-byte array. *)
Module RequestId.

(** [b.toString(16)]. *)
Definition toString16 (b : N) : jsstring :=
  lit (HexadecimalString.NilZero.string_of_uint (N.to_hex_uint b)).

(** [s.padStart(len, fill)] for a one-unit [fill]. *)
Definition padStart (len : nat) (fill : N) (s : jsstring) : jsstring :=
  repeat fill (len - List.length s) ++ s.

Definition hex2 (b : N) : jsstring := padStart 2 48 (toString16 b).

(** [bytes[i] = f(bytes[i])]. *)
Fixpoint update (i : nat) (f : N -> N) (bytes : list N) : list N :=
  match bytes, i with
  | [], _ => []
  | b :: rest, O => f b :: rest
  | b :: rest, S j => b :: update j f rest
  end.

(** [hex.slice(a, b).join('')]. *)
Definition slice_join (a b : nat) (hex : list jsstring) : jsstring :=
  List.concat (firstn (b - a) (skipn a hex)).

Definition set_version (b : N) : N := N.lor (N.land b 15) 64.
Definition set_variant (b : N) : N := N.lor (N.land b 63) 128.

Definition getRequestId (randomUUID : option jsstring) (random : list N)
    : jsstring :=
  match randomUUID with
  | Some id => id
  | None =>
      let bytes := random in
      let bytes := update 6 set_version bytes in
      let bytes := update 8 set_variant bytes in
      let hex := List.map hex2 bytes in
      slice_join 0 4 hex ++ lit "-" ++ slice_join 4 6 hex ++ lit "-"
      ++ slice_join 6 8 hex ++ lit "-" ++ slice_join 8 10 hex ++ lit "-"
      ++ slice_join 10 16 hex
  end.

(** The contents of a [Uint8Array(16)]. *)
Definition bytes16 (bytes : list N) : Prop :=
  List.length bytes = 16 /\ Forall (fun b => (b < 256)%N) bytes.

Definition isHex (c : N) : bool :=
  (N.leb 48 c && N.leb c 57) || (N.leb 97 c && N.leb c 102).

(** The unit expected at place [i] of a version 4 identifier:
    8-4-4-4-12 lower-case hexadecimal digits, the third group starting
    with 4 and the fourth with 8, 9, a or b. *)
Definition unit_ok (i : nat) (c : N) : bool :=
  match i with
  | 8 | 13 | 18 | 23 => N.eqb c 45
  | 14 => N.eqb c 52
  | 19 => N.eqb c 56 || N.eqb c 57 || N.eqb c 97 || N.eqb c 98
  | _ => isHex c
  end.

Fixpoint units_ok (i : nat) (id : jsstring) : bool :=
  match id with
  | [] => true
  | c :: rest => unit_ok i c && units_ok (S i) rest
  end.

Definition is_uuid_v4 (id : jsstring) : bool :=
  Nat.eqb (List.length id) 36 && units_ok 0 id.

Definition unhex (c : N) : N :=
  if N.leb c 57 then (c - 48)%N else (c - 87)%N.

(** The bytes an identifier spells, hyphens left out. *)
Fixpoint read_pairs (s : jsstring) : list N :=
  match s with
  | h :: l :: rest => (unhex h * 16 + unhex l)%N :: read_pairs rest
  | _ => []
  end.

Definition bytes_of_id (id : jsstring) : list N :=
  read_pairs (filter (fun c => negb (N.eqb c 45)) id).

(** What is checked of each byte value. *)
Definition hex2_ok (b : N) : bool :=
  match hex2 b with
  | [h; l] => isHex h && isHex l && N.eqb (unhex h * 16 + unhex l) b
  | _ => false
  end.

Definition version_ok (b : N) : bool :=
  match hex2 (set_version b) with
  | [h; _] => N.eqb h 52 && N.ltb (set_version b) 256
  | _ => false
  end.

Definition variant_ok (b : N) : bool :=
  match hex2 (set_variant b) with
  | [h; _] => (N.eqb h 56 || N.eqb h 57 || N.eqb h 97 || N.eqb h 98)
              && N.ltb (set_variant b) 256
  | _ => false
  end.

Definition all_bytes : list N := List.map N.of_nat (seq 0 256).

End RequestId.

(** ** sendMessage and the background reply *)
Module Background.

(** [s.includes(p)]. *)
Fixpoint prefix_of (p s : jsstring) : bool :=
  match p, s with
  | [], _ => true
  | x :: p', y :: s' => N.eqb x y && prefix_of p' s'
  | _ :: _, [] => false
  end.

Fixpoint includes (s p : jsstring) : bool :=
  prefix_of p s
  || match s with
     | [] => false
     | _ :: s' => includes s' p
     end.

(** [fetch(url, { method: 'POST', headers, body: JSON.stringify({ chat_id,
    text, disable_web_page_preview }) })]. *)
Record sendRequest := {
  send_url : jsstring;
  send_chat_id : Z;
  send_text : jsstring;
  send_disable_web_page_preview : bool
}.

(** What [res.json()] gives: it rejects, or it gives a value, of which the
    code only asks whether [data && data.ok === false]. *)
Inductive jsonRead :=
| JsonRejects
| JsonValue (reports_failure : bool).

(** A response: [res.ok], [res.status], the content-type header, what
    [res.json()] and [res.text()] give, and what the [res.text()] of the
    [catch] block gives after the first read failed ([None]: it rejects). *)
Record sendResponse := {
  ok : bool;
  status : N;
  content_type : option jsstring;
  json : jsonRead;
  text : option jsstring;
  text_again : option jsstring
}.

Definition sendNetwork := sendRequest -> option sendResponse.

Inductive entry :=
| Posted (r : sendRequest)
| ErrorSendFailed (status : N)        (* 'Telegram sendMessage failed' *)
| LogSendOk                           (* 'Telegram sendMessage ok' *)
| ErrorSendThrew (e : exn).           (* 'sendMessage threw' *)

(** [data] after the [try]/[catch]: a JSON value or a string. *)
Inductive sdata :=
| SJson (reports_failure : bool)
| SText (t : jsstring).

Definition is_json (res : sendResponse) : bool :=
  includes (or_else (content_type res) []) (lit "application/json").

Definition read_body (res : sendResponse) : sdata :=
  let fallback :=
    SText (match text_again res with Some t => t | None => [] end) in
  if is_json res then
    match json res with
    | JsonValue f => SJson f
    | JsonRejects => fallback
    end
  else
    match text res with
    | Some t => SText t
    | None => fallback
    end.

(** [data && data.ok === false]. *)
Definition reports_failure (d : sdata) : bool :=
  match d with
  | SJson f => f
  | SText _ => false
  end.

Definition request_for (token : jsstring) (chatId : Z) (msg : jsstring)
    : sendRequest :=
  {| send_url := TELEGRAM_API token ++ lit "/sendMessage";
     send_chat_id := chatId;
     send_text := msg;
     send_disable_web_page_preview := true |}.

Definition sendMessage (net : sendNetwork) (token : jsstring) (chatId : Z)
    (msg : jsstring) : list entry * result unit :=
  let r := request_for token chatId msg in
  match net r with
  | None => ([Posted r], Throw NetworkError)
  | Some res =>
      let data := read_body res in
      if negb (ok res) || reports_failure data
      then ([Posted r; ErrorSendFailed (status res)], Ok tt)
      else ([Posted r; LogSendOk], Ok tt)
  end.

(** The function handed to [waitUntil]:
    [try { await sendMessage(...) } catch (err) { console.error(...) }]. *)
Definition background (net : sendNetwork) (token : jsstring) (chatId : Z)
    (msg : jsstring) : list entry * result unit :=
  match sendMessage net token chatId msg with
  | (log, Ok tt) => (log, Ok tt)
  | (log, Throw err) => (log ++ [ErrorSendThrew err], Ok tt)
  end.

Definition run_task (net : sendNetwork) (t : task) : list entry * result unit :=
  match t with
  | SendMessageTask token chatId greeting => background net token chatId greeting
  | WebhookInitTask => ([], Ok tt)
  end.

Definition console_lines (log : list entry) : list entry :=
  filter (fun e => match e with Posted _ => false | _ => true end) log.

Definition posts (log : list entry) : list sendRequest :=
  flat_map (fun e => match e with Posted r => [r] | _ => [] end) log.

End Background.

(** The tasks a run handed to [waitUntil], and the requests it made. *)
Definition scheduled (evs : list event) : list task :=
  flat_map (fun e => match e with WaitUntil t => [t] | _ => [] end) evs.

Definition fetches (evs : list event) : list fetchReq :=
  flat_map (fun e => match e with Fetch r => [r] | _ => [] end) evs.

(** [env] with another value for [BASE_URL]. *)
Definition with_base_url (env : Bindings) (base : option jsstring) : Bindings :=
  {| BOT_API_TOKEN := BOT_API_TOKEN env;
     WEBHOOK_SECRET_TOKEN := WEBHOOK_SECRET_TOKEN env;
     BASE_URL := base;
     AUTO_WEBHOOK_INIT := AUTO_WEBHOOK_INIT env |}.

(** The requests among the inputs of a process that enter the middleware
    with the cold-start flag on. *)
Definition enabled_request (i : input) : bool :=
  match i with
  | Incoming env _ _ req => reaches_middleware req && auto_init_enabled env
  | InitSettles => false
  end.

(** The request the receiver sees when a probe call of the status script
    reaches it as sent: a POST of [/webhook] with the header value and the
    body unchanged. *)
Definition delivered_probe (header : jsstring) (n : N) : Request :=
  {| req_method := POST;
     req_path := lit "/webhook";
     secret_header := Some header;
     req_body := Status.stringify_update_id n |}.

(** One of the two cases of a letter. *)
Definition either_case (lower : N) (c : N) : Prop :=
  c = lower \/ c = (lower - 32)%N.

(** ** The post-deploy trigger script

    [file] is the [.env] file, [procBase] is [process.env.BASE_URL], and the
    network answers the GET of the script.  A run yields the URLs fetched
    and the exit code of the process. *)
Module Trigger.

Record response := {
  ok : bool;
  status : N;
  content_type : option jsstring;
  json_reads : bool;          (* res.json() resolves *)
  text_reads : bool           (* res.text() resolves *)
}.

Definition network := jsstring -> option response.

(** [a || b] on values that are strings or [undefined]. *)
Definition js_or (a b : option jsstring) : option jsstring :=
  if truthy_opt a then a else b.

(** [(env.BASE_URL || process.env.BASE_URL || '').replace(/\/$/, '')]. *)
Definition base_url (file procBase : option jsstring) : jsstring :=
  dropTrailingSlash
    (or_else (js_or (Env.get (Env.loadEnv file) (lit "BASE_URL")) procBase) []).

(** The body is read with [res.json()] or [res.text()] by content type. *)
Definition body_reads (res : response) : bool :=
  if Background.includes (or_else (content_type res) []) (lit "application/json")
  then json_reads res
  else text_reads res.

Definition main (net : network) (base : jsstring) : list jsstring * N :=
  if negb (truthy base) then ([], 1%N)
  else
    let url := base ++ lit "/set-webhook" in
    match net url with
    | None => ([url], 1%N)
    | Some res =>
        if negb (body_reads res) then ([url], 1%N)
        else if negb (ok res) then ([url], 1%N)
        else ([url], 0%N)
    end.

Definition run (file procBase : option jsstring) (net : network)
    : list jsstring * N :=
  main net (base_url file procBase).

End Trigger.

(** [absent] closes what is left once a run has been computed: that an event
    does not occur in a list that is written out, or that two results with
    different constructors differ. *)
Ltac absent := simpl; intuition discriminate.

(** * Properties *)

(** ** Strings *)

Lemma str_eqb_eq (a b : jsstring) : str_eqb a b = true <-> a = b.
Proof.
  revert b; induction a as [|x a IH]; intros [|y b]; simpl; split;
    try congruence; try reflexivity.
  - intros H. apply andb_true_iff in H as [Hx Hab].
    apply N.eqb_eq in Hx. apply IH in Hab. congruence.
  - intros H. injection H as -> ->.
    apply andb_true_iff; split; [apply N.eqb_refl | now apply IH].
Qed.

Lemma trimStart_id (s : jsstring) : startsWS s = false -> trimStart s = s.
Proof. destruct s as [|c s]; simpl; [reflexivity|]. now intros ->. Qed.

Lemma trim_id (s : jsstring) :
  startsWS s = false -> endsWS s = false -> trim s = s.
Proof.
  intros Hs He. unfold trim, trimEnd. rewrite (trimStart_id _ Hs).
  unfold endsWS in He. rewrite (trimStart_id _ He). apply rev_involutive.
Qed.

Lemma startsWS_app (a b : jsstring) : a <> [] -> startsWS (a ++ b) = startsWS a.
Proof. destruct a; [congruence | reflexivity]. Qed.

Lemma endsWS_app (a b : jsstring) : b <> [] -> endsWS (a ++ b) = endsWS b.
Proof.
  intros Hb. unfold endsWS. rewrite rev_app_distr. apply startsWS_app.
  intros E. apply (f_equal (@rev N)) in E. rewrite rev_involutive in E.
  now apply Hb.
Qed.

Lemma tidy_sep (sep a b : jsstring) : tidy a -> tidy b -> tidy (a ++ sep ++ b).
Proof.
  intros (Ha & Hs & _) (Hb & _ & He). repeat split.
  - destruct a; [congruence | discriminate].
  - now rewrite startsWS_app.
  - rewrite app_assoc. now rewrite endsWS_app.
Qed.

Lemma tidy_join (sep : jsstring) (toks : list jsstring) :
  toks <> [] -> Forall tidy toks -> tidy (join sep toks).
Proof.
  induction toks as [|t toks IH]; [congruence|]. intros _ H.
  inversion H as [|? ? Ht Hrest]; subst.
  destruct toks as [|t' toks]; [exact Ht|].
  change (tidy (t ++ sep ++ join sep (t' :: toks))).
  apply tidy_sep; [exact Ht|]. apply IH; [discriminate | exact Hrest].
Qed.

Lemma tidy_at (s : jsstring) : tidy s -> tidy (lit "@" ++ s).
Proof.
  intros (Hne & _ & He). repeat split.
  - discriminate.
  - now rewrite endsWS_app.
Qed.

(** ** buildGreeting *)

Lemma greetingParts_tokens (u : TelegramUser) :
  greetingParts u = greeting_tokens u.
Proof.
  unfold greetingParts, greeting_tokens, push_if.
  destruct (username u) as [[|c1 s1]|], (first_name u) as [[|c2 s2]|],
    (last_name u) as [[|c3 s3]|]; reflexivity.
Qed.

Lemma tidy_nonempty (o : option jsstring) : tidy_field o -> nonempty o = o.
Proof.
  destruct o as [[|c s]|]; simpl; try reflexivity.
  intros (H & _). congruence.
Qed.

Lemma tidy_tokens (u : TelegramUser) :
  tidy_user u -> greeting_tokens u = spec_tokens u /\ Forall tidy (spec_tokens u).
Proof.
  unfold tidy_user, greeting_tokens, spec_tokens.
  intros (Hu & Hf & Hl).
  rewrite (tidy_nonempty _ Hu), (tidy_nonempty _ Hf), (tidy_nonempty _ Hl).
  split; [reflexivity|].
  destruct (username u), (first_name u), (last_name u); simpl in *;
    repeat (apply Forall_cons || apply Forall_nil);
    try assumption; exact (tidy_at Hu).
Qed.

Lemma greeting_of_tidy (u : TelegramUser) :
  tidy_user u -> buildGreeting (Some u) = spec_greeting (Some u).
Proof.
  intros Hu. destruct (tidy_tokens Hu) as [Htok Hall].
  unfold buildGreeting, spec_greeting.
  rewrite greetingParts_tokens, Htok.
  destruct (spec_tokens u) as [|t toks] eqn:E; [reflexivity|].
  assert (Hj : tidy (join (lit " ") (t :: toks)))
    by (apply tidy_join; [discriminate | exact Hall]).
  destruct Hj as (Hne & Hs & He).
  rewrite (trim_id _ Hs He).
  destruct (join (lit " ") (t :: toks)); [congruence | reflexivity].
Qed.

(** What [trim] leaves has no white space at either end. *)
Lemma trimStart_starts (s : jsstring) : startsWS (trimStart s) = false.
Proof.
  induction s as [|c s IH]; simpl; [reflexivity|].
  destruct (isWhiteSpace c) eqn:E; [exact IH | exact E].
Qed.

Lemma trimStart_suffix (s : jsstring) : exists p, s = p ++ trimStart s.
Proof.
  induction s as [|c s [p IH]]; simpl; [now exists []|].
  destruct (isWhiteSpace c).
  - exists (c :: p). simpl. now f_equal.
  - now exists [].
Qed.

Lemma trim_ends (s : jsstring) : endsWS (trim s) = false.
Proof.
  unfold trim, trimEnd, endsWS. rewrite rev_involutive.
  apply trimStart_starts.
Qed.

Lemma trim_starts (s : jsstring) : startsWS (trim s) = false.
Proof.
  unfold trim, trimEnd.
  pose proof (trimStart_starts s) as Hs.
  set (t := trimStart s) in *.
  destruct (trimStart_suffix (rev t)) as [p Hp].
  set (r := trimStart (rev t)) in *.
  assert (Ht : t = rev r ++ rev p).
  { rewrite <- rev_app_distr, <- Hp. symmetry. apply rev_involutive. }
  destruct (rev r) as [|c r'] eqn:E; [reflexivity|].
  rewrite Ht in Hs. exact Hs.
Qed.

Example greeting_bob : buildGreeting (Some bob) = lit "Hello @bob Bob".
Proof. reflexivity. Qed.

Example greeting_blank_name :
  buildGreeting (Some (mkUser None (Some (lit " ")) None)) = lit "Hello there".
Proof. reflexivity. Qed.

Example greeting_empty_username :
  buildGreeting (Some (mkUser (Some []) None (Some (lit "C")))) = lit "Hello C".
Proof. reflexivity. Qed.

(** C3, as stated, fails: for a sender whose only field is the first name
    " B" the stated rule gives "Hello " followed by " B", with two spaces,
    while [buildGreeting] trims the joined text and returns "Hello B". *)
Lemma buildGreeting_differs_on_padded :
  buildGreeting (Some padded) = lit "Hello B"
  /\ spec_greeting (Some padded) = lit "Hello  B"
  /\ buildGreeting (Some padded) <> spec_greeting (Some padded).
Proof. repeat split. discriminate. Qed.

(** C3 (amended): the greeting is "Hello there" for an absent sender;
    otherwise the tokens "@username", first name, last name are taken, in
    order, from the fields that are non-empty strings, joined by single
    spaces, and the joined text is stripped of white space at both ends; the
    greeting is "Hello " followed by that text, or "Hello there" when it is
    empty (in particular when no field is non-empty).  When every field that
    is present is non-empty and neither begins nor ends with white space, this
    is the rule of the specification.  For username "a", first name "B", last
    name "C" the greeting is "Hello @a B C". *)
Theorem buildGreeting_amended :
  buildGreeting None = lit "Hello there"
  /\ (forall u,
        let info := trim (join (lit " ") (greeting_tokens u)) in
        buildGreeting (Some u)
        = (if truthy info then lit "Hello " ++ info else lit "Hello there")
        /\ startsWS info = false /\ endsWS info = false)
  /\ (forall u, greeting_tokens u = [] ->
        buildGreeting (Some u) = lit "Hello there")
  /\ (forall u, tidy_user u -> buildGreeting (Some u) = spec_greeting (Some u))
  /\ buildGreeting (Some abc) = lit "Hello @a B C".
Proof.
  split; [reflexivity|]. split; [|split; [|split]].
  - intros u info. subst info. unfold buildGreeting.
    rewrite greetingParts_tokens.
    split; [reflexivity|]. split; [apply trim_starts | apply trim_ends].
  - intros u H. unfold buildGreeting. rewrite greetingParts_tokens, H.
    reflexivity.
  - exact greeting_of_tidy.
  - reflexivity.
Qed.

Lemma buildGreeting_amended_witness :
  tidy_user bob /\ buildGreeting (Some bob) = spec_greeting (Some bob).
Proof.
  assert (H : tidy_user bob).
  { unfold tidy_user, tidy_field, tidy; simpl.
    repeat split; try discriminate; reflexivity. }
  split; [exact H|].
  exact (proj1 (proj2 (proj2 (proj2 buildGreeting_amended))) bob H).
Defined.

(** ** The webhook receiver *)

Lemma secret_check (env : Bindings) (req : Request) :
  truthy_opt (WEBHOOK_SECRET_TOKEN env)
  && strict_neq (secret_header req) (WEBHOOK_SECRET_TOKEN env) = false
  <-> authorized env req.
Proof.
  unfold authorized.
  destruct (truthy_opt (WEBHOOK_SECRET_TOKEN env)) eqn:Ht; simpl.
  - destruct (WEBHOOK_SECRET_TOKEN env) as [s|]; [|discriminate].
    destruct (secret_header req) as [h|]; simpl.
    + rewrite negb_false_iff, str_eqb_eq. split.
      * intros ->. now right.
      * intros [H|H]; [discriminate | congruence].
    + split; [discriminate | intros [H|H]; discriminate].
  - split; auto.
Qed.

Section Receiver.

Variable parseJson : jsstring -> option decoded.
Variable reqId : jsstring.
Variable env : Bindings.
Variable req : Request.

Lemma webhook_unauthorized :
  ~ authorized env req ->
  webhook parseJson reqId env req
  = ([WarnWebhookRejected reqId],
     Ok {| status := 401; body := Text (lit "unauthorized") |}).
Proof.
  intros H. unfold webhook.
  destruct (truthy_opt (WEBHOOK_SECRET_TOKEN env)
            && strict_neq (secret_header req) (WEBHOOK_SECRET_TOKEN env)) eqn:E.
  - reflexivity.
  - apply secret_check in E. contradiction.
Qed.

Lemma webhook_unparsed :
  authorized env req ->
  parseJson (req_body req) = None ->
  webhook parseJson reqId env req
  = ([ReadBody; ErrorInvalidJson reqId],
     Ok {| status := 400; body := Text (lit "bad request") |}).
Proof.
  intros H Hp. apply secret_check in H. unfold webhook, req_json.
  rewrite H, Hp. reflexivity.
Qed.

Lemma webhook_null :
  authorized env req ->
  parseJson (req_body req) = Some NullBody ->
  webhook parseJson reqId env req = ([ReadBody], Throw TypeError).
Proof.
  intros H Hp. apply secret_check in H. unfold webhook, req_json.
  rewrite H, Hp. reflexivity.
Qed.

Lemma webhook_parsed (u : TelegramUpdate) :
  authorized env req ->
  parseJson (req_body req) = Some (Update u) ->
  webhook parseJson reqId env req
  = match selected u with
    | Some m => reply_to reqId env m
    | None => ([ReadBody; LogNoMessagePayload reqId], Ok ok200)
    end.
Proof.
  intros H Hp. apply secret_check in H. unfold webhook, req_json, selected.
  rewrite H, Hp. unfold reply_to.
  cbv beta iota delta [bind try_catch emit ret throw app].
  destruct (message u) as [m|]; [|destruct (edited_message u) as [m|]];
    [destruct (chat m); reflexivity | destruct (chat m); reflexivity
    | reflexivity].
Qed.

End Receiver.

Lemma webhook_authorized_run (parseJson : jsstring -> option decoded)
    (reqId : jsstring) (env : Bindings) (req : Request) :
  authorized env req ->
  let run := webhook parseJson reqId env req in
  (forall r, outcome run = Ok r -> status r = 400%N \/ status r = 200%N)
  /\ In ReadBody (events run)
  /\ ~ In (WarnWebhookRejected reqId) (events run).
Proof.
  intros H run. subst run.
  destruct (parseJson (req_body req)) as [[|u]|] eqn:Hp.
  - rewrite (webhook_null _ reqId H Hp). split; [discriminate|]. absent.
  - rewrite (webhook_parsed _ reqId H Hp). unfold reply_to.
    destruct (selected u) as [m|]; [destruct (chat m)|];
      (split; [intros r E; injection E as <-; now right|]); absent.
  - rewrite (webhook_unparsed _ reqId H Hp).
    split; [intros r E; injection E as <-; now left|]. absent.
Qed.

(** C1: when a non-empty secret is configured and the request's
    X-Telegram-Bot-Api-Secret-Token header is not equal to it (or is
    missing), the receiver answers 401 and does nothing else: the only event
    is the warning, so the body is never read and nothing is handed to
    [waitUntil]. *)
Theorem webhook_rejects_wrong_secret
    (parseJson : jsstring -> option decoded) (reqId : jsstring)
    (env : Bindings) (req : Request) (secret : jsstring) :
  WEBHOOK_SECRET_TOKEN env = Some secret ->
  secret <> [] ->
  secret_header req <> Some secret ->
  let run := webhook parseJson reqId env req in
  outcome run = Ok {| status := 401; body := Text (lit "unauthorized") |}
  /\ events run = [WarnWebhookRejected reqId]
  /\ ~ In ReadBody (events run)
  /\ (forall t, ~ In (WaitUntil t) (events run)).
Proof.
  intros Hs Hne Hh run. subst run.
  rewrite webhook_unauthorized.
  - repeat split; absent.
  - unfold authorized. rewrite Hs. intros [H|H].
    + destruct secret; [congruence | discriminate].
    + contradiction.
Qed.

Lemma webhook_rejects_wrong_secret_witness :
  let run := webhook Demo.parseProbe (lit "req-1")
               (Demo.env_with_secret (Some (lit "S1")))
               (Demo.post_webhook (Some (lit "wrong")) (Status.stringify_update_id 1)) in
  outcome run = Ok {| status := 401; body := Text (lit "unauthorized") |}
  /\ events run = [WarnWebhookRejected (lit "req-1")]
  /\ ~ In ReadBody (events run)
  /\ (forall t, ~ In (WaitUntil t) (events run)).
Proof.
  apply webhook_rejects_wrong_secret with (secret := lit "S1");
    [reflexivity | discriminate | discriminate].
Defined.

(** C2: when no secret is configured, the receiver never rejects a request
    for its X-Telegram-Bot-Api-Secret-Token header, whatever the header
    holds and also when it is missing: the request gets past the check and
    its body is read, no rejection is logged, and an answer, when the
    handler gives one, is 400 or 200 and so never 401. *)
Theorem webhook_without_secret_never_401
    (parseJson : jsstring -> option decoded) (reqId : jsstring)
    (env : Bindings) (req : Request) :
  WEBHOOK_SECRET_TOKEN env = None ->
  let run := webhook parseJson reqId env req in
  (forall r, outcome run = Ok r -> status r <> 401%N)
  /\ (forall r, outcome run = Ok r -> status r = 400%N \/ status r = 200%N)
  /\ In ReadBody (events run)
  /\ ~ In (WarnWebhookRejected reqId) (events run).
Proof.
  intros Hs run. subst run.
  destruct (@webhook_authorized_run parseJson reqId env req)
    as (Hst & Hread & Hev).
  - left. now rewrite Hs.
  - repeat split; try assumption.
    intros r Hr. destruct (Hst r Hr) as [E | E]; rewrite E; discriminate.
Qed.

Lemma webhook_without_secret_never_401_witness :
  let run := webhook Demo.parseProbe (lit "req-1")
               (Demo.env_with_secret None)
               (Demo.post_webhook (Some (lit "__invalid__"))
                  (Status.stringify_update_id 2)) in
  (forall r, outcome run = Ok r -> status r <> 401%N)
  /\ (forall r, outcome run = Ok r -> status r = 400%N \/ status r = 200%N)
  /\ In ReadBody (events run)
  /\ ~ In (WarnWebhookRejected (lit "req-1")) (events run).
Proof. apply webhook_without_secret_never_401. reflexivity. Defined.

(** C4: when the request passes the secret check and its body is not JSON,
    the receiver answers 400 and hands nothing to [waitUntil]. *)
Theorem webhook_bad_json_400
    (parseJson : jsstring -> option decoded) (reqId : jsstring)
    (env : Bindings) (req : Request) :
  authorized env req ->
  parseJson (req_body req) = None ->
  let run := webhook parseJson reqId env req in
  outcome run = Ok {| status := 400; body := Text (lit "bad request") |}
  /\ (forall t, ~ In (WaitUntil t) (events run)).
Proof.
  intros H Hp run. subst run. rewrite (webhook_unparsed _ reqId H Hp).
  split; [reflexivity|]. absent.
Qed.

Lemma webhook_bad_json_400_witness :
  let run := webhook Demo.parseProbe (lit "req-1")
               (Demo.env_with_secret (Some (lit "S1")))
               (Demo.post_webhook (Some (lit "S1")) (lit "{update_id")) in
  outcome run = Ok {| status := 400; body := Text (lit "bad request") |}
  /\ (forall t, ~ In (WaitUntil t) (events run)).
Proof.
  apply webhook_bad_json_400; [right; reflexivity | reflexivity].
Defined.

(** C5: for a decoded update with neither [message] nor [edited_message],
    the receiver answers 200 "ok"; it reads the body, logs, hands nothing to
    [waitUntil] and calls nothing. *)
Theorem webhook_no_payload_ok
    (parseJson : jsstring -> option decoded) (reqId : jsstring)
    (env : Bindings) (req : Request) (u : TelegramUpdate) :
  authorized env req ->
  parseJson (req_body req) = Some (Update u) ->
  message u = None ->
  edited_message u = None ->
  let run := webhook parseJson reqId env req in
  outcome run = Ok {| status := 200; body := Text (lit "ok") |}
  /\ events run = [ReadBody; LogNoMessagePayload reqId]
  /\ (forall t, ~ In (WaitUntil t) (events run))
  /\ (forall r, ~ In (Fetch r) (events run)).
Proof.
  intros H Hp Hm He run. subst run. rewrite (webhook_parsed _ reqId H Hp).
  unfold selected. rewrite Hm, He.
  repeat split; absent.
Qed.

(** The scenario of the specification: secret "S1", header "S1",
    body [{update_id:1}]. *)
Lemma webhook_no_payload_ok_witness :
  let run := webhook Demo.parseProbe (lit "req-1")
               (Demo.env_with_secret (Some (lit "S1")))
               (Demo.post_webhook (Some (lit "S1")) (Status.stringify_update_id 1)) in
  outcome run = Ok {| status := 200; body := Text (lit "ok") |}
  /\ events run = [ReadBody; LogNoMessagePayload (lit "req-1")]
  /\ (forall t, ~ In (WaitUntil t) (events run))
  /\ (forall r, ~ In (Fetch r) (events run)).
Proof.
  apply webhook_no_payload_ok with (u := bare_update 1);
    [right; reflexivity | reflexivity | reflexivity | reflexivity].
Defined.

(** C8: an empty configured secret counts as no secret: the receiver then
    behaves exactly as with the variable unset, so no request is rejected:
    whatever its header, the request gets past the check and its body is
    read, no rejection is logged, and an answer, when the handler gives one,
    is never 401. *)
Theorem webhook_empty_secret_unchecked
    (parseJson : jsstring -> option decoded) (reqId : jsstring)
    (env : Bindings) (req : Request) :
  WEBHOOK_SECRET_TOKEN env = Some [] ->
  let run := webhook parseJson reqId env req in
  run = webhook parseJson reqId (with_secret env None) req
  /\ (forall r, outcome run = Ok r -> status r <> 401%N)
  /\ In ReadBody (events run)
  /\ ~ In (WarnWebhookRejected reqId) (events run).
Proof.
  intros Hs run. subst run. split.
  - unfold webhook. rewrite Hs. reflexivity.
  - destruct (@webhook_authorized_run parseJson reqId env req)
      as (Hst & Hread & Hev).
    + left. now rewrite Hs.
    + repeat split; try assumption.
      intros r Hr. destruct (Hst r Hr) as [E | E]; rewrite E; discriminate.
Qed.

Lemma webhook_empty_secret_unchecked_witness :
  let env := Demo.env_with_secret (Some []) in
  let req := Demo.post_webhook (Some (lit "__invalid__"))
               (Status.stringify_update_id 2) in
  let run := webhook Demo.parseProbe (lit "req-1") env req in
  run = webhook Demo.parseProbe (lit "req-1") (with_secret env None) req
  /\ (forall r, outcome run = Ok r -> status r <> 401%N)
  /\ In ReadBody (events run)
  /\ ~ In (WarnWebhookRejected (lit "req-1")) (events run).
Proof. apply webhook_empty_secret_unchecked. reflexivity. Defined.

(** A body that is the JSON value [null] passes the parse and then makes the
    handler throw, with or without a configured secret; the rejection for a
    wrong header still comes first. *)
Example webhook_null_body :
  webhook Demo.parseProbe (lit "req-1") (Demo.env_with_secret None)
    (Demo.post_webhook None (lit "null"))
  = ([ReadBody], Throw TypeError)
  /\ webhook Demo.parseProbe (lit "req-1") (Demo.env_with_secret (Some []))
       (Demo.post_webhook (Some (lit "x")) (lit "null"))
     = ([ReadBody], Throw TypeError)
  /\ outcome (webhook Demo.parseProbe (lit "req-1")
                (Demo.env_with_secret (Some (lit "S1")))
                (Demo.post_webhook (Some (lit "x")) (lit "null")))
     = Ok {| status := 401; body := Text (lit "unauthorized") |}.
Proof. repeat split. Qed.

(** C9: for an update that has [message], the receiver works on [message]
    alone: it replies to its chat with the greeting of its sender (or only
    acknowledges when it has no chat), whatever [edited_message] holds;
    [edited_message] is worked on only when [message] is absent. *)
Theorem webhook_prefers_message
    (parseJson : jsstring -> option decoded) (reqId : jsstring)
    (env : Bindings) (req : Request) (u : TelegramUpdate) :
  authorized env req ->
  parseJson (req_body req) = Some (Update u) ->
  (forall m, message u = Some m ->
     webhook parseJson reqId env req = reply_to reqId env m)
  /\ (forall e, message u = None -> edited_message u = Some e ->
        webhook parseJson reqId env req = reply_to reqId env e).
Proof.
  intros H Hp. rewrite (webhook_parsed _ reqId H Hp). unfold selected.
  split.
  - intros m ->. reflexivity.
  - intros e -> ->. reflexivity.
Qed.

Lemma webhook_prefers_message_witness :
  webhook (parseAs Demo.update_with_both) (lit "req-1")
    (Demo.env_with_secret None) (Demo.post_webhook None [])
  = ([ReadBody;
      WaitUntil (SendMessageTask (lit "123:abc") 42 (lit "Hello @bob Bob"));
      LogUpdateProcessed (lit "req-1") 42], Ok ok200).
Proof.
  apply (proj1 (@webhook_prefers_message (parseAs Demo.update_with_both)
                  (lit "req-1") (Demo.env_with_secret None)
                  (Demo.post_webhook None []) Demo.update_with_both
                  (or_introl eq_refl) eq_refl) Demo.msg_from_bob eq_refl).
Defined.

(** C10: when the payload the receiver settles on has no [chat], it answers
    200 "ok" and hands nothing to [waitUntil], exactly as it does for an
    update that carries no message payload at all. *)
Theorem webhook_chatless_payload_ok
    (parseJson : jsstring -> option decoded) (reqId : jsstring)
    (env : Bindings) (req : Request) (u : TelegramUpdate) (m : TelegramMessage) :
  authorized env req ->
  parseJson (req_body req) = Some (Update u) ->
  selected u = Some m ->
  chat m = None ->
  let run := webhook parseJson reqId env req in
  outcome run = Ok {| status := 200; body := Text (lit "ok") |}
  /\ (forall t, ~ In (WaitUntil t) (events run))
  /\ run = webhook (parseAs (bare_update (update_id u))) reqId env req.
Proof.
  intros H Hp Hsel Hc run. subst run.
  rewrite (webhook_parsed _ reqId H Hp), Hsel.
  rewrite (@webhook_parsed (parseAs (bare_update (update_id u)))
             reqId env req _ H eq_refl).
  unfold reply_to. rewrite Hc.
  repeat split; absent.
Qed.

Lemma webhook_chatless_payload_ok_witness :
  let run := webhook (parseAs Demo.update_without_chat) (lit "req-1")
               (Demo.env_with_secret None) (Demo.post_webhook None []) in
  outcome run = Ok {| status := 200; body := Text (lit "ok") |}
  /\ (forall t, ~ In (WaitUntil t) (events run))
  /\ run = webhook (parseAs (bare_update 4)) (lit "req-1")
             (Demo.env_with_secret None) (Demo.post_webhook None []).
Proof.
  apply webhook_chatless_payload_ok
    with (u := Demo.update_without_chat) (m := Demo.msg_without_chat);
    [left; reflexivity | reflexivity | reflexivity | reflexivity].
Defined.

(** ** The cold-start initializer *)

Lemma outcome_bind (A B : Type) (m : Eff A) (k : A -> Eff B) (a : A) :
  outcome m = Ok a -> outcome (bind m k) = outcome (k a).
Proof.
  destruct m as [evs [a'|e]]; simpl; [|discriminate].
  intros H. injection H as ->. now destruct (k a).
Qed.


Lemma try_catch_resolves (m : Eff unit) (h : exn -> Eff unit) :
  (forall e, outcome (h e) = Ok tt) -> outcome (try_catch m h) = Ok tt.
Proof.
  intros H. destruct m as [evs [[]|e]]; simpl; [reflexivity|].
  specialize (H e). now destruct (h e).
Qed.



Lemma configureWebhook_resolves (env : Bindings) (net : network) :
  outcome (configureWebhook env net) = Ok tt.
Proof.
  unfold configureWebhook.
  rewrite outcome_bind with (a := tt) by (now apply try_catch_resolves).
  destruct (option_map dropTrailingSlash (BASE_URL env)) as [[|c b]|];
    try reflexivity.
  now apply try_catch_resolves.
Qed.

Lemma middleware_latch (env : Bindings) (net : network) (p : process) :
  latch_ok p -> latch_ok (middleware env net p).
Proof.
  unfold middleware. intros [[Hc Hp] | [Hc Hp]].
  - rewrite Hp. destruct (auto_init_enabled env); simpl.
    + destruct (until_first_fetch (events (configureWebhook env net)))
        as [now later].
      right. simpl. rewrite Hc, configureWebhook_resolves. eauto.
    + now left.
  - assert (E : (auto_init_enabled env
                 && negb (match webhookInitPromise p with
                          | Some _ => true
                          | None => false
                          end)) = false)
      by (destruct Hp as [[later ->] | ->]; apply andb_false_r).
    rewrite E. now right.
Qed.

Lemma settle_latch (p : process) : latch_ok p -> latch_ok (settle p).
Proof.
  unfold settle. intros [[Hc Hp] | [Hc [[later Hp] | Hp]]]; rewrite Hp.
  - left. now rewrite Hp.
  - right. simpl. auto.
  - right. rewrite Hp. auto.
Qed.

Lemma step_latch (parseJson : jsstring -> option decoded) (p : process)
    (i : input) :
  latch_ok p -> latch_ok (fst (step parseJson p i)).
Proof.
  intros H. destruct i as [env net reqId req|]; simpl.
  - assert (H1 : latch_ok (if reaches_middleware req
                           then middleware env net p else p))
      by (destruct (reaches_middleware req);
          [now apply middleware_latch | exact H]).
    destruct (route parseJson reqId env net req); simpl; exact H1.
  - now apply settle_latch.
Qed.



(** A process with the flag set to [TRUE] on which every call to the Bot
    API fails: the health route does not start the initializer, the first
    other request does, and no later one starts it again.  The call has
    issued its first [fetch] when it is handed to [waitUntil]; the rest is
    written by the time it settles. *)
Example cold_start_runs_once :
  let env := Demo.env_with_secret (Some (lit "S1")) in
  let health := {| req_method := GET; req_path := lit "/";
                   secret_header := None; req_body := [] |} in
  let other := {| req_method := GET; req_path := lit "/favicon.ico";
                  secret_header := None; req_body := [] |} in
  let p0 := run Demo.parseProbe cold_start
              [Incoming env Demo.offline (lit "r0") health] in
  let p1 := run Demo.parseProbe p0
              [Incoming env Demo.offline (lit "r1") other;
               Incoming env Demo.offline (lit "r2") other] in
  let p := run Demo.parseProbe p1
             [InitSettles; Incoming env Demo.online (lit "r3") other] in
  configureCalls p0 = 0
  /\ console p1 = [Fetch (deleteWebhook_call env); WaitUntil WebhookInitTask]
  /\ configureCalls p = 1
  /\ webhookInitPromise p = Some Fulfilled
  /\ console p = [Fetch (deleteWebhook_call env);
                  WaitUntil WebhookInitTask;
                  WarnDeleteWebhookError NetworkError;
                  Fetch (setWebhook_call env (lit "https://bot.example.workers.dev"));
                  ErrorSetWebhookError NetworkError].
Proof. repeat split. Qed.

Example auto_init_flag_values :
  let flag v := auto_init_enabled
                  {| BOT_API_TOKEN := []; WEBHOOK_SECRET_TOKEN := None;
                     BASE_URL := None; AUTO_WEBHOOK_INIT := v |} in
  flag (Some (lit "true")) = true /\ flag (Some (lit "True")) = true
  /\ flag (Some (lit "1")) = false /\ flag (Some []) = false
  /\ flag None = false.
Proof. repeat split. Qed.

(** Without the flag the initializer never runs. *)
Example cold_start_disabled :
  let env := {| BOT_API_TOKEN := lit "123:abc"; WEBHOOK_SECRET_TOKEN := None;
                BASE_URL := None; AUTO_WEBHOOK_INIT := Some (lit "yes") |} in
  configureCalls (run Demo.parseProbe cold_start
                    [Incoming env Demo.online (lit "r1")
                       (Demo.post_webhook None (lit "null"))]) = 0.
Proof. reflexivity. Qed.

(** ** The status script *)

Lemma check_verdict (World : Type)
    (fetchJson : jsstring -> Status.fetchOptions -> World -> Status.fetchResult * World)
    (baseUrl : jsstring) (secret : option jsstring) (w : World) :
  baseUrl <> [] ->
  let good := Status.good_call fetchJson baseUrl secret w in
  let bad := Status.bad_call fetchJson baseUrl (snd good) in
  Status.checkWebhookSecret fetchJson baseUrl secret w
  = ({| Status.check_ok :=
          if truthy_opt secret
          then N.eqb (Status.status (fst bad)) 401
               && N.eqb (Status.status (fst good)) 200
          else N.eqb (Status.status (fst good)) 200
               && N.eqb (Status.status (fst bad)) 200;
        Status.details :=
          lit "good=" ++ ofN (Status.status (fst good))
          ++ lit "; bad=" ++ ofN (Status.status (fst bad))
          ++ lit "; enforced="
          ++ (if truthy_opt secret then lit "yes" else lit "no") |},
     snd bad).
Proof.
  intros Hb good bad. unfold Status.checkWebhookSecret.
  destruct baseUrl as [|c b]; [congruence|]. simpl negb. cbv iota.
  subst bad. fold good. destruct good as [g w1].
  simpl fst. simpl snd. destruct (Status.bad_call fetchJson (c :: b) w1) as [bd w2].
  reflexivity.
Qed.

(** C7: the secret-enforcement check makes two calls, in this order: a POST
    to BASE_URL followed by [/webhook] with a JSON content type, the
    configured secret (the empty string when none is configured) in the
    X-Telegram-Bot-Api-Secret-Token header and the body [{"update_id":1}];
    then the same with [__invalid__] in the header and [{"update_id":2}].
    It passes exactly when the calls are made (BASE_URL is set) and, with a
    secret configured, the first returns 200 and the second 401, or, with no
    secret configured, both return 200.  Without BASE_URL it makes no call. *)
Theorem checkWebhookSecret_passes_iff (World : Type)
    (fetchJson : jsstring -> Status.fetchOptions -> World -> Status.fetchResult * World)
    (baseUrl : jsstring) (secret : option jsstring) (w : World) :
  let post token bodyText :=
    {| Status.method := POST;
       Status.headers := [(lit "Content-Type", lit "application/json");
                          (lit "X-Telegram-Bot-Api-Secret-Token", token)];
       Status.body := Some bodyText |} in
  let configured := match secret with
                    | Some (c :: s) => c :: s
                    | _ => []
                    end in
  let good :=
    fetchJson (baseUrl ++ lit "/webhook")
      (post configured (lit "{" ++ [34%N] ++ lit "update_id" ++ [34%N] ++ lit ":1}"))
      w in
  let bad :=
    fetchJson (baseUrl ++ lit "/webhook")
      (post (lit "__invalid__")
         (lit "{" ++ [34%N] ++ lit "update_id" ++ [34%N] ++ lit ":2}"))
      (snd good) in
  let check := Status.checkWebhookSecret fetchJson baseUrl secret w in
  (Status.check_ok (fst check) = true
   <-> baseUrl <> []
       /\ (truthy_opt secret = true ->
             Status.status (fst good) = 200%N /\ Status.status (fst bad) = 401%N)
       /\ (truthy_opt secret = false ->
             Status.status (fst good) = 200%N /\ Status.status (fst bad) = 200%N))
  /\ snd check = match baseUrl with
                 | [] => w
                 | _ => snd bad
                 end.
Proof.
  intros post configured good bad check. subst check.
  destruct baseUrl as [|c b].
  - split; [|reflexivity]. simpl.
    split; [discriminate | intros (H & _); congruence].
  - assert (Hne : c :: b <> []) by discriminate.
    rewrite (check_verdict fetchJson secret w Hne).
    change (Status.good_call fetchJson (c :: b) secret w) with good.
    change (Status.bad_call fetchJson (c :: b) (snd good)) with bad.
    cbn [fst snd Status.check_ok]. split; [|reflexivity].
    destruct (truthy_opt secret); rewrite andb_true_iff, !N.eqb_eq; split.
    + intros [H1 H2]. repeat split; try discriminate; auto.
    + intros (_ & H & _). destruct (H eq_refl). auto.
    + intros [H1 H2]. repeat split; try discriminate; auto.
    + intros (_ & _ & H). destruct (H eq_refl). auto.
Qed.

(** The requests the check sends, recorded by a service that answers 200 to
    everything. *)
Example status_check_requests :
  let record url opts (log : list (jsstring * Status.fetchOptions)) :=
    ({| Status.ok := true; Status.status := 200; Status.data := lit "ok" |},
     log ++ [(url, opts)]) in
  snd (Status.checkWebhookSecret record (lit "https://w.dev") (Some (lit "S1")) [])
  = [(lit "https://w.dev/webhook",
      {| Status.method := POST;
         Status.headers := [(lit "Content-Type", lit "application/json");
                            (lit "X-Telegram-Bot-Api-Secret-Token", lit "S1")];
         Status.body := Some (lit "{" ++ [34%N] ++ lit "update_id" ++ [34%N] ++ lit ":1}") |});
     (lit "https://w.dev/webhook",
      {| Status.method := POST;
         Status.headers := [(lit "Content-Type", lit "application/json");
                            (lit "X-Telegram-Bot-Api-Secret-Token", lit "__invalid__")];
         Status.body := Some (lit "{" ++ [34%N] ++ lit "update_id" ++ [34%N] ++ lit ":2}") |})]
  /\ snd (Status.checkWebhookSecret record [] (Some (lit "S1")) []) = [].
Proof. split; reflexivity. Qed.

(** The check run against the simulated worker, with the secret "S1" known
    to both sides, to neither, and to the script only. *)
Example status_check_enforced :
  fst (Status.checkWebhookSecret
         (Demo.serve (Demo.env_with_secret (Some (lit "S1"))))
         (lit "https://bot.example.workers.dev") (Some (lit "S1")) tt)
  = {| Status.check_ok := true;
       Status.details := lit "good=200; bad=401; enforced=yes" |}.
Proof. reflexivity. Qed.

Example status_check_no_secret :
  fst (Status.checkWebhookSecret
         (Demo.serve (Demo.env_with_secret None))
         (lit "https://bot.example.workers.dev") None tt)
  = {| Status.check_ok := true;
       Status.details := lit "good=200; bad=200; enforced=no" |}.
Proof. reflexivity. Qed.

Example status_check_not_enforced :
  fst (Status.checkWebhookSecret
         (Demo.serve (Demo.env_with_secret None))
         (lit "https://bot.example.workers.dev") (Some (lit "S1")) tt)
  = {| Status.check_ok := false;
       Status.details := lit "good=200; bad=200; enforced=yes" |}.
Proof. reflexivity. Qed.

Example status_check_without_base_url :
  fst (Status.checkWebhookSecret
         (Demo.serve (Demo.env_with_secret None)) [] None tt)
  = {| Status.check_ok := false; Status.details := lit "BASE_URL is missing" |}.
Proof. reflexivity. Qed.

(** ** The [.env] reader *)

Lemma trimStart_blank (ws : jsstring) : Env.blank ws -> trimStart ws = [].
Proof.
  induction 1 as [|c ws Hc _ IH]; simpl; [reflexivity|]. now rewrite Hc.
Qed.

Lemma trimStart_app (x y : jsstring) :
  trimStart (x ++ y)
  = match trimStart x with
    | [] => trimStart y
    | t => t ++ y
    end.
Proof.
  induction x as [|c x IH]; simpl.
  - now destruct (trimStart y).
  - destruct (isWhiteSpace c); [exact IH | reflexivity].
Qed.

Lemma trimStart_blank_app (ws s : jsstring) :
  Env.blank ws -> trimStart (ws ++ s) = trimStart s.
Proof. intros H. rewrite trimStart_app, (trimStart_blank H). reflexivity. Qed.

Lemma blank_rev (ws : jsstring) : Env.blank ws -> Env.blank (rev ws).
Proof. apply Forall_rev. Qed.

Lemma trimEnd_blank_app (s ws : jsstring) :
  Env.blank ws -> trimEnd (s ++ ws) = trimEnd s.
Proof.
  intros H. unfold trimEnd. rewrite rev_app_distr.
  now rewrite (trimStart_blank_app _ (blank_rev H)).
Qed.

Lemma trimEnd_id (s : jsstring) : endsWS s = false -> trimEnd s = s.
Proof.
  intros H. unfold trimEnd. rewrite (trimStart_id _ H). apply rev_involutive.
Qed.

(** A part that ends in no white space is out of reach of [trimEnd]. *)
Lemma trimEnd_app_keep (x y : jsstring) :
  x <> [] -> endsWS x = false -> trimEnd (x ++ y) = x ++ trimEnd y.
Proof.
  intros Hne H. unfold trimEnd. rewrite rev_app_distr, trimStart_app.
  destruct (trimStart (rev y)) as [|c t] eqn:E.
  - rewrite (trimStart_id _ H), rev_involutive. now rewrite app_nil_r.
  - rewrite rev_app_distr, rev_involutive. reflexivity.
Qed.

Lemma trim_blank (ws : jsstring) : Env.blank ws -> trim ws = [].
Proof. intros H. unfold trim. now rewrite (trimStart_blank H). Qed.

Lemma trim_padded (ws1 s ws2 : jsstring) :
  Env.blank ws1 -> Env.blank ws2 -> Env.trimmed s -> trim (ws1 ++ s ++ ws2) = s.
Proof.
  intros H1 H2 [Hs He]. unfold trim. rewrite (trimStart_blank_app _ H1).
  destruct s as [|c s].
  - simpl. now rewrite (trimStart_blank H2).
  - rewrite trimStart_id by exact Hs.
    rewrite (trimEnd_blank_app _ H2). now apply trimEnd_id.
Qed.

Lemma trim_app_blank (s ws : jsstring) : Env.blank ws -> trim (s ++ ws) = trim s.
Proof.
  intros H. unfold trim. rewrite trimStart_app.
  destruct (trimStart s) as [|c t] eqn:E.
  - now rewrite (trimStart_blank H).
  - now apply trimEnd_blank_app.
Qed.

Lemma indexOf_app (c : N) (x y : jsstring) :
  Env.indexOf c x = None -> Env.indexOf c (x ++ c :: y) = Some (List.length x).
Proof.
  induction x as [|a x IH]; simpl.
  - now rewrite N.eqb_refl.
  - destruct (N.eqb a c); [discriminate|].
    destruct (Env.indexOf c x); [discriminate|].
    intros _. now rewrite IH.
Qed.

Lemma indexOf_none_app (c : N) (x y : jsstring) :
  Env.indexOf c x = None -> Env.indexOf c y = None ->
  Env.indexOf c (x ++ y) = None.
Proof.
  induction x as [|a x IH]; simpl; [auto|].
  destruct (N.eqb a c); [discriminate|].
  destruct (Env.indexOf c x); [discriminate|].
  intros _ Hy. now rewrite IH.
Qed.

Lemma indexOf_blank (ws : jsstring) : Env.blank ws -> Env.indexOf 61 ws = None.
Proof.
  induction 1 as [|c ws Hc _ IH]; simpl; [reflexivity|].
  destruct (N.eqb c 61) eqn:E.
  - apply N.eqb_eq in E. subst c. discriminate.
  - now rewrite IH.
Qed.

Lemma firstn_length_app (A : Type) (x y : list A) : firstn (List.length x) (x ++ y) = x.
Proof. induction x; simpl; [now destruct y | now f_equal]. Qed.

Lemma skipn_length_app (A : Type) (x y : list A) (a : A) :
  skipn (S (List.length x)) (x ++ a :: y) = y.
Proof. induction x; simpl; auto. Qed.

Lemma endsWS_last (x : jsstring) (c : N) : endsWS (x ++ [c]) = isWhiteSpace c.
Proof. unfold endsWS. now rewrite rev_app_distr. Qed.

(** What a well-formed assignment line yields, before the value is looked
    at for quotes. *)
Lemma parse_line_assignment (ws1 k ws2 ws3 v ws4 : jsstring) :
  Env.blank ws1 -> Env.blank ws2 -> Env.blank ws3 -> Env.blank ws4 ->
  k <> [] -> Env.trimmed k -> Env.trimmed v ->
  Env.indexOf 61 k = None ->
  Env.starts_with 35 k = false ->
  Env.parse_line (ws1 ++ k ++ ws2 ++ [61%N] ++ ws3 ++ v ++ ws4)
  = Some (k, if Env.quoted v then Env.slice_inner v else v).
Proof.
  intros B1 B2 B3 B4 Hk [Hks Hke] Tv Hidx Hhash.
  unfold Env.parse_line.
  set (R := trimEnd (ws3 ++ v ++ ws4)).
  assert (HR : trim R = v).
  { subst R. destruct v as [|c v].
    - simpl. rewrite trim_blank; [reflexivity|].
      unfold trimEnd. rewrite trimStart_blank; [constructor|].
      apply blank_rev. now apply Forall_app.
    - rewrite (app_assoc ws3), (trimEnd_blank_app _ B4).
      rewrite trimEnd_id.
      + rewrite <- (app_nil_r (c :: v)) at 1. apply trim_padded; auto.
        constructor.
      + rewrite endsWS_app by discriminate. apply Tv. }
  assert (Ht : trim (ws1 ++ k ++ ws2 ++ [61%N] ++ ws3 ++ v ++ ws4)
               = (k ++ ws2) ++ 61%N :: R).
  { unfold trim. rewrite (trimStart_blank_app _ B1).
    rewrite trimStart_id by (now rewrite startsWS_app).
    replace (k ++ ws2 ++ [61%N] ++ ws3 ++ v ++ ws4)
      with (((k ++ ws2) ++ [61%N]) ++ ws3 ++ v ++ ws4)
      by (now rewrite <- !app_assoc).
    rewrite trimEnd_app_keep.
    - subst R. now rewrite <- !app_assoc.
    - destruct (k ++ ws2); discriminate.
    - apply endsWS_last. }
  rewrite Ht.
  assert (Hne : truthy ((k ++ ws2) ++ 61%N :: R) = true)
    by (destruct k; [congruence | reflexivity]).
  assert (Hh : Env.starts_with 35 ((k ++ ws2) ++ 61%N :: R) = false)
    by (destruct k; [congruence | exact Hhash]).
  rewrite Hne, Hh. simpl negb. simpl orb.
  rewrite indexOf_app by (apply indexOf_none_app; [exact Hidx | now apply indexOf_blank]).
  rewrite firstn_length_app, skipn_length_app, HR.
  rewrite <- (app_nil_l (k ++ ws2)).
  rewrite trim_padded; auto; [constructor | now split].
Qed.

(** X2: an assignment line gives its key and value with the white space
    around the key, the equals sign and the value dropped; the value may
    itself contain equals signs. *)
Theorem loadEnv_step_plain (env : Env.envobj) (ws1 k ws2 ws3 v ws4 : jsstring) :
  Env.blank ws1 -> Env.blank ws2 -> Env.blank ws3 -> Env.blank ws4 ->
  k <> [] -> Env.trimmed k -> Env.trimmed v ->
  Env.indexOf 61 k = None ->
  Env.starts_with 35 k = false ->
  Env.quoted v = false ->
  Env.loadEnv_step env (ws1 ++ k ++ ws2 ++ [61%N] ++ ws3 ++ v ++ ws4)
  = Env.assign k v env.
Proof.
  intros B1 B2 B3 B4 Hk Tk Tv Hidx Hhash Hq. unfold Env.loadEnv_step.
  rewrite parse_line_assignment by assumption. now rewrite Hq.
Qed.

Lemma loadEnv_step_plain_witness :
  Env.loadEnv_step [] (lit "  BASE_URL = https://bot.example.dev/?a=b  ")
  = Env.assign (lit "BASE_URL") (lit "https://bot.example.dev/?a=b") [].
Proof.
  apply (@loadEnv_step_plain [] (lit "  ") (lit "BASE_URL") (lit " ") (lit " ")
           (lit "https://bot.example.dev/?a=b") (lit "  "));
    try (repeat constructor); try discriminate; reflexivity.
Defined.

(** X3: a value written between two double quotes or two single quotes is
    taken as the text between them, whatever that text is: white space at
    its ends, hashes, equals signs and quotes inside are kept. *)
Theorem loadEnv_step_quoted (env : Env.envobj) (ws1 k ws2 ws3 v ws4 : jsstring)
    (q : N) :
  Env.blank ws1 -> Env.blank ws2 -> Env.blank ws3 -> Env.blank ws4 ->
  k <> [] -> Env.trimmed k ->
  Env.indexOf 61 k = None ->
  Env.starts_with 35 k = false ->
  q = 34%N \/ q = 39%N ->
  Env.loadEnv_step env
    (ws1 ++ k ++ ws2 ++ [61%N] ++ ws3 ++ (q :: v ++ [q]) ++ ws4)
  = Env.assign k v env.
Proof.
  intros B1 B2 B3 B4 Hk Tk Hidx Hhash Hq. unfold Env.loadEnv_step.
  rewrite parse_line_assignment; try assumption.
  - assert (E : Env.quoted (q :: v ++ [q]) = true).
    { unfold Env.quoted, Env.ends_with. rewrite app_comm_cons, rev_app_distr.
      simpl. destruct Hq as [-> | ->]; reflexivity. }
    rewrite E. unfold Env.slice_inner. simpl tl.
    now rewrite removelast_last.
  - split.
    + destruct Hq as [-> | ->]; reflexivity.
    + rewrite app_comm_cons, endsWS_last. destruct Hq as [-> | ->]; reflexivity.
Qed.

Lemma loadEnv_step_quoted_witness :
  Env.loadEnv_step [] (lit "GREETING=' # a = b '")
  = Env.assign (lit "GREETING") (lit " # a = b ") [].
Proof.
  apply (@loadEnv_step_quoted [] [] (lit "GREETING") [] [] (lit " # a = b ") [] 39%N);
    try (repeat constructor); try discriminate; reflexivity.
Defined.

Lemma cons_first_cr_more (c : N) (L L' : list jsstring) :
  Forall2 Env.cr_more L L' ->
  Forall2 Env.cr_more (Env.cons_first c L) (Env.cons_first c L').
Proof.
  intros [|l l' R R' H HR]; simpl.
  - constructor; [now left | constructor].
  - constructor; [|exact HR]. destruct H as [-> | ->]; [now left | now right].
Qed.

Lemma split_lines_lf_bounded (n : nat) :
  forall s, List.length s <= n ->
            Forall2 Env.cr_more (Env.split_lines s) (Env.split_lf s).
Proof.
  induction n as [|n IH]; intros [|c rest] Hlen; simpl in Hlen; try lia;
    try (simpl; constructor; [now left | constructor]).
  simpl Env.split_lf. simpl Env.split_lines.
  destruct (N.eqb c 10) eqn:Ec.
  - constructor; [now left | apply IH; lia].
  - destruct rest as [|d rest'].
    + simpl. constructor; [now left | constructor].
    + destruct (N.eqb c 13 && N.eqb d 10) eqn:E.
      * apply andb_true_iff in E as [E1 E2].
        apply N.eqb_eq in E1. subst c.
        simpl Env.split_lf. rewrite E2. simpl.
        constructor; [now right | apply IH; simpl in Hlen; lia].
      * apply cons_first_cr_more. apply IH. lia.
Qed.

Lemma split_lines_lf (s : jsstring) :
  Forall2 Env.cr_more (Env.split_lines s) (Env.split_lf s).
Proof. now apply split_lines_lf_bounded with (n := List.length s). Qed.

Lemma parse_line_cr_more (l l' : jsstring) :
  Env.cr_more l l' -> Env.parse_line l' = Env.parse_line l.
Proof.
  intros [-> | ->]; [reflexivity|]. unfold Env.parse_line.
  rewrite trim_app_blank; [reflexivity|]. repeat constructor.
Qed.

Lemma fold_cr_more (L L' : list jsstring) :
  Forall2 Env.cr_more L L' ->
  forall env, fold_left Env.loadEnv_step L' env = fold_left Env.loadEnv_step L env.
Proof.
  induction 1 as [|l l' L L' H _ IH]; intros env; simpl; [reflexivity|].
  unfold Env.loadEnv_step at 2 4. rewrite (parse_line_cr_more H). apply IH.
Qed.

Lemma loadEnv_lf (content : jsstring) :
  Env.loadEnv (Some content) = fold_left Env.loadEnv_step (Env.split_lf content) [].
Proof. symmetry. apply fold_cr_more, split_lines_lf. Qed.

Lemma split_lf_nonempty (s : jsstring) : Env.split_lf s <> [].
Proof.
  destruct s as [|c s]; simpl; [discriminate|].
  destruct (N.eqb c 10); [discriminate|].
  destruct (Env.split_lf s); discriminate.
Qed.

Lemma split_lf_app (a b : jsstring) :
  Env.split_lf (a ++ 10%N :: b) = Env.split_lf a ++ Env.split_lf b.
Proof.
  induction a as [|c a IH]; simpl; [reflexivity|].
  destruct (N.eqb c 10); rewrite IH; [reflexivity|].
  pose proof (split_lf_nonempty a) as H.
  destruct (Env.split_lf a); [congruence | reflexivity].
Qed.

Lemma split_lf_line (l : jsstring) : ~ In 10%N l -> Env.split_lf l = [l].
Proof.
  induction l as [|c l IH]; simpl; [reflexivity|]. intros H.
  destruct (N.eqb c 10) eqn:E.
  - apply N.eqb_eq in E. tauto.
  - rewrite IH by tauto. reflexivity.
Qed.

Lemma loadEnv_app (a b : jsstring) :
  Env.loadEnv (Some (a ++ 10%N :: b))
  = fold_left Env.loadEnv_step (Env.split_lf b) (Env.loadEnv (Some a)).
Proof. now rewrite !loadEnv_lf, split_lf_app, fold_left_app. Qed.

Lemma get_assign_same (env : Env.envobj) (k v : jsstring) :
  k <> lit "__proto__" -> Env.get (Env.assign k v env) k = Some v.
Proof.
  intros H. unfold Env.assign.
  destruct (str_eqb k (lit "__proto__")) eqn:E.
  - apply str_eqb_eq in E. contradiction.
  - simpl. now rewrite (proj2 (str_eqb_eq k k) eq_refl).
Qed.

Lemma get_assign_other (env : Env.envobj) (k v k' : jsstring) :
  k' <> k -> Env.get (Env.assign k v env) k' = Env.get env k'.
Proof.
  intros H. unfold Env.assign.
  destruct (str_eqb k (lit "__proto__")); [reflexivity|]. simpl.
  destruct (str_eqb k k') eqn:E; [|reflexivity].
  apply str_eqb_eq in E. congruence.
Qed.

(** X1: a file is read line by line, and a line added at the end decides
    its key: after any content, a last line that assigns [v] to a key other
    than [__proto__] makes the key read [v] and leaves every other key as
    the content before it had set it. *)
Theorem loadEnv_last_line_wins (a l k v : jsstring) :
  ~ In 10%N l ->
  Env.parse_line l = Some (k, v) ->
  k <> lit "__proto__" ->
  Env.loadEnv (Some (a ++ 10%N :: l)) = Env.loadEnv_step (Env.loadEnv (Some a)) l
  /\ Env.get (Env.loadEnv (Some (a ++ 10%N :: l))) k = Some v
  /\ (forall k', k' <> k ->
        Env.get (Env.loadEnv (Some (a ++ 10%N :: l))) k'
        = Env.get (Env.loadEnv (Some a)) k').
Proof.
  intros Hl Hp Hk. rewrite loadEnv_app, (split_lf_line _ Hl). simpl.
  assert (E : forall env, Env.loadEnv_step env l = Env.assign k v env)
    by (intros env; unfold Env.loadEnv_step; now rewrite Hp).
  rewrite !E. split; [reflexivity|]. split.
  - now apply get_assign_same.
  - intros k' Hk'. now apply get_assign_other.
Qed.

Lemma loadEnv_last_line_wins_witness :
  let a := lit "TOKEN=old" ++ [10%N] ++ lit "BASE_URL=https://x.dev" in
  let l := lit "TOKEN=new" in
  Env.loadEnv (Some (a ++ 10%N :: l)) = Env.loadEnv_step (Env.loadEnv (Some a)) l
  /\ Env.get (Env.loadEnv (Some (a ++ 10%N :: l))) (lit "TOKEN") = Some (lit "new")
  /\ (forall k', k' <> lit "TOKEN" ->
        Env.get (Env.loadEnv (Some (a ++ 10%N :: l))) k'
        = Env.get (Env.loadEnv (Some a)) k').
Proof.
  apply loadEnv_last_line_wins; [|reflexivity|discriminate].
  simpl. intuition discriminate.
Defined.

Lemma indexOf_none_in (c : N) (s : jsstring) :
  Env.indexOf c s = None <-> ~ In c s.
Proof.
  induction s as [|x s IH]; simpl; [tauto|].
  destruct (N.eqb x c) eqn:E.
  - apply N.eqb_eq in E. split; [discriminate | tauto].
  - apply N.eqb_neq in E. destruct (Env.indexOf c s); simpl.
    + split; [discriminate|]. intros H. exfalso. apply H. right.
      apply Decidable.not_not; [|intros Hn; apply IH in Hn; discriminate].
      destruct (in_dec N.eq_dec c s); [now left | now right].
    + split; [|reflexivity]. intros _ [H|H]; [congruence | now apply IH].
Qed.

Lemma in_trimStart (c : N) (s : jsstring) : In c (trimStart s) -> In c s.
Proof.
  induction s as [|x s IH]; simpl; [tauto|].
  destruct (isWhiteSpace x); [intros H; right; now apply IH | tauto].
Qed.

Lemma in_trim (c : N) (s : jsstring) : In c (trim s) -> In c s.
Proof.
  unfold trim, trimEnd. intros H. apply in_rev in H.
  apply in_trimStart in H. apply in_rev in H. now apply in_trimStart.
Qed.

Lemma parse_line_ignored (l : jsstring) :
  trim l = [] \/ Env.starts_with 35 (trim l) = true \/ ~ In 61%N l ->
  Env.parse_line l = None.
Proof.
  unfold Env.parse_line. intros [H | [H | H]].
  - now rewrite H.
  - rewrite H. now rewrite orb_true_r.
  - destruct (negb (truthy (trim l)) || Env.starts_with 35 (trim l));
      [reflexivity|].
    assert (E : Env.indexOf 61 (trim l) = None).
    { apply indexOf_none_in. intros Hin. apply H. now apply in_trim. }
    now rewrite E.
Qed.

(** X4: a line that is blank, that starts with a hash after its leading
    white space, or that holds no equals sign changes nothing, wherever it
    stands in the file: in the middle, first or last. *)
Theorem loadEnv_ignores_line (a l b : jsstring) :
  ~ In 10%N l ->
  trim l = [] \/ Env.starts_with 35 (trim l) = true \/ ~ In 61%N l ->
  Env.loadEnv (Some (a ++ 10%N :: l ++ 10%N :: b)) = Env.loadEnv (Some (a ++ 10%N :: b))
  /\ Env.loadEnv (Some (l ++ 10%N :: b)) = Env.loadEnv (Some b)
  /\ Env.loadEnv (Some (a ++ 10%N :: l)) = Env.loadEnv (Some a).
Proof.
  intros Hl Hign. pose proof (parse_line_ignored _ Hign) as Hp.
  assert (E : forall env, Env.loadEnv_step env l = env)
    by (intros env; unfold Env.loadEnv_step; now rewrite Hp).
  repeat split.
  - rewrite !loadEnv_app, split_lf_app, (split_lf_line _ Hl), fold_left_app.
    simpl. now rewrite E.
  - rewrite loadEnv_app, !loadEnv_lf, (split_lf_line _ Hl). simpl.
    now rewrite E.
  - rewrite loadEnv_app, (split_lf_line _ Hl). simpl. apply E.
Qed.

Lemma loadEnv_ignores_line_witness :
  let a := lit "TOKEN=t" in
  let l := lit "   # BASE_URL=https://old.dev" in
  let b := lit "BASE_URL=https://x.dev" in
  Env.loadEnv (Some (a ++ 10%N :: l ++ 10%N :: b)) = Env.loadEnv (Some (a ++ 10%N :: b))
  /\ Env.loadEnv (Some (l ++ 10%N :: b)) = Env.loadEnv (Some b)
  /\ Env.loadEnv (Some (a ++ 10%N :: l)) = Env.loadEnv (Some a).
Proof.
  apply loadEnv_ignores_line; [|right; left; reflexivity].
  simpl. intuition discriminate.
Defined.

Lemma split_lf_trailing_cr (a : jsstring) :
  Forall2 Env.cr_more (Env.split_lf a) (Env.split_lf (a ++ [13%N])).
Proof.
  induction a as [|c a IH]; simpl.
  - constructor; [now right | constructor].
  - destruct (N.eqb c 10).
    + constructor; [now left | exact IH].
    + now apply cons_first_cr_more.
Qed.

(** X5: a file with Windows line ends reads as the same file with Unix
    line ends: CR LF in place of LF at any place changes nothing. *)
Theorem loadEnv_crlf (a b : jsstring) :
  Env.loadEnv (Some (a ++ 13%N :: 10%N :: b)) = Env.loadEnv (Some (a ++ 10%N :: b)).
Proof.
  replace (a ++ 13%N :: 10%N :: b) with ((a ++ [13%N]) ++ 10%N :: b)
    by (now rewrite <- app_assoc).
  rewrite !loadEnv_app. f_equal. rewrite !loadEnv_lf.
  apply fold_cr_more, split_lf_trailing_cr.
Qed.

Example loadEnv_sample :
  let file := lit "# bot" ++ [13%N; 10%N] ++ lit "BOT_API_TOKEN = 123:abc"
              ++ [13%N; 10%N] ++ [10%N] ++ lit "WEBHOOK_SECRET_TOKEN='S1'"
              ++ [10%N] ++ lit "export" ++ [10%N] ++ lit "__proto__=x" in
  Env.loadEnv (Some file)
  = [(lit "WEBHOOK_SECRET_TOKEN", lit "S1"); (lit "BOT_API_TOKEN", lit "123:abc")]
  /\ Env.loadEnv None = [].
Proof. split; reflexivity. Qed.

(** ** getRequestId *)

Lemma all_bytes_in (b : N) : (b < 256)%N -> In b RequestId.all_bytes.
Proof.
  intros H. unfold RequestId.all_bytes.
  rewrite <- (N2Nat.id b). apply in_map. apply in_seq. lia.
Qed.

Lemma byte_table :
  forallb (fun b => RequestId.hex2_ok b && RequestId.version_ok b
                    && RequestId.variant_ok b) RequestId.all_bytes = true.
Proof. vm_compute. reflexivity. Qed.

Lemma byte_checks (b : N) :
  (b < 256)%N ->
  RequestId.hex2_ok b = true /\ RequestId.version_ok b = true
  /\ RequestId.variant_ok b = true.
Proof.
  intros H. pose proof (proj1 (forallb_forall _ _) byte_table b (all_bytes_in H)) as E.
  apply andb_true_iff in E as [E E3]. apply andb_true_iff in E as [E1 E2]. auto.
Qed.

Lemma hex2_shape (b : N) :
  (b < 256)%N ->
  exists h l, RequestId.hex2 b = [h; l]
              /\ RequestId.isHex h = true /\ RequestId.isHex l = true
              /\ (RequestId.unhex h * 16 + RequestId.unhex l)%N = b.
Proof.
  intros H. destruct (byte_checks H) as (E & _). unfold RequestId.hex2_ok in E.
  destruct (RequestId.hex2 b) as [|h [|l [|? ?]]]; try discriminate.
  apply andb_true_iff in E as [E E3]. apply andb_true_iff in E as [E1 E2].
  exists h, l. repeat split; auto. now apply N.eqb_eq.
Qed.

Lemma hex2_version (b : N) :
  (b < 256)%N ->
  exists l, RequestId.hex2 (RequestId.set_version b) = [52%N; l]
            /\ RequestId.isHex l = true
            /\ (RequestId.unhex 52 * 16 + RequestId.unhex l)%N
               = RequestId.set_version b.
Proof.
  intros H. destruct (byte_checks H) as (_ & E & _).
  unfold RequestId.version_ok in E.
  destruct (RequestId.hex2 (RequestId.set_version b)) as [|h [|l [|? ?]]] eqn:Eh;
    try discriminate.
  apply andb_true_iff in E as [E1 E2]. apply N.eqb_eq in E1. subst h.
  apply N.ltb_lt in E2. destruct (hex2_shape E2) as (h' & l' & E' & _ & Hl & Hv).
  rewrite Eh in E'. injection E' as <- <-. exists l. auto.
Qed.

Lemma hex2_variant (b : N) :
  (b < 256)%N ->
  exists h l, RequestId.hex2 (RequestId.set_variant b) = [h; l]
              /\ (N.eqb h 56 || N.eqb h 57 || N.eqb h 97 || N.eqb h 98) = true
              /\ RequestId.isHex h = true /\ RequestId.isHex l = true
              /\ (RequestId.unhex h * 16 + RequestId.unhex l)%N
                 = RequestId.set_variant b.
Proof.
  intros H. destruct (byte_checks H) as (_ & _ & E).
  unfold RequestId.variant_ok in E.
  destruct (RequestId.hex2 (RequestId.set_variant b)) as [|h [|l [|? ?]]] eqn:Eh;
    try discriminate.
  apply andb_true_iff in E as [E1 E2].
  apply N.ltb_lt in E2. destruct (hex2_shape E2) as (h' & l' & E' & Hh & Hl & Hv).
  rewrite Eh in E'. injection E' as <- <-. exists h, l. auto.
Qed.

Lemma isHex_not_hyphen (c : N) : RequestId.isHex c = true -> N.eqb c 45 = false.
Proof.
  unfold RequestId.isHex. intros H. apply N.eqb_neq. intros ->. discriminate.
Qed.

(** Name the sixteen bytes of the array. *)
Ltac name_bytes random Hlen Hall :=
  do 16 (destruct random as [|? random]; [discriminate Hlen|]);
  destruct random; [|discriminate Hlen];
  repeat match goal with
         | H : Forall _ (_ :: _) |- _ => inversion H; subst; clear H
         end.

(** Replace each [hex2 b] of the goal by its two digits. *)
Ltac spell_bytes :=
  repeat match goal with
         | Hb : (?b < 256)%N
           |- context [RequestId.hex2 (RequestId.set_version ?b)] =>
             let l := fresh "l" in let E := fresh "E" in
             let Hl := fresh "Hl" in let Hv := fresh "Hv" in
             destruct (hex2_version Hb) as (l & E & Hl & Hv); rewrite E
         | Hb : (?b < 256)%N
           |- context [RequestId.hex2 (RequestId.set_variant ?b)] =>
             let h := fresh "h" in let l := fresh "l" in let E := fresh "E" in
             let Hx := fresh "Hx" in let Hh := fresh "Hh" in
             let Hl := fresh "Hl" in let Hv := fresh "Hv" in
             destruct (hex2_variant Hb) as (h & l & E & Hx & Hh & Hl & Hv);
             rewrite E
         | Hb : (?b < 256)%N |- context [RequestId.hex2 ?b] =>
             let h := fresh "h" in let l := fresh "l" in let E := fresh "E" in
             let Hh := fresh "Hh" in let Hl := fresh "Hl" in
             let Hv := fresh "Hv" in
             destruct (hex2_shape Hb) as (h & l & E & Hh & Hl & Hv);
             rewrite !E
         end.

(** X6: on a runtime without [crypto.randomUUID], whatever the sixteen
    random bytes are, the request identifier is a well-formed version 4
    UUID: 36 units, lower-case hexadecimal digits in groups of 8, 4, 4, 4
    and 12 between hyphens, a 4 opening the third group and one of 8, 9, a,
    b the fourth. *)
Theorem getRequestId_well_formed (random : list N) :
  RequestId.bytes16 random ->
  RequestId.is_uuid_v4 (RequestId.getRequestId None random) = true.
Proof.
  intros [Hlen Hall]. name_bytes random Hlen Hall.
  unfold RequestId.getRequestId, RequestId.slice_join.
  cbn [RequestId.update List.map Nat.sub skipn firstn List.concat app].
  spell_bytes.
  unfold RequestId.is_uuid_v4.
  cbn [List.length Nat.eqb app lit list_ascii_of_string List.map andb
       RequestId.units_ok RequestId.unit_ok].
  repeat match goal with
         | H : RequestId.isHex _ = true |- _ => rewrite H; clear H
         | H : (_ || _)%bool = true |- _ => rewrite H; clear H
         end.
  reflexivity.
Qed.

Lemma getRequestId_well_formed_witness :
  RequestId.is_uuid_v4
    (RequestId.getRequestId None (List.map N.of_nat (seq 240 16))) = true.
Proof.
  apply getRequestId_well_formed. split; [reflexivity|].
  repeat constructor.
Defined.

Lemma keep_digit (c : N) (rest : jsstring) :
  RequestId.isHex c = true ->
  filter (fun c => negb (N.eqb c 45)) (c :: rest)
  = c :: filter (fun c => negb (N.eqb c 45)) rest.
Proof. intros H. simpl. now rewrite (isHex_not_hyphen _ H). Qed.

Lemma drop_hyphen (rest : jsstring) :
  filter (fun c => negb (N.eqb c 45)) (45%N :: rest)
  = filter (fun c => negb (N.eqb c 45)) rest.
Proof. reflexivity. Qed.

(** X7: the identifier spells the sixteen bytes it was made from, the
    version and variant bits apart: reading its digits back gives the array
    as it stood after the two overwrites, so two draws give the same
    identifier only if they agree in every other bit. *)
Theorem getRequestId_spells_bytes (random : list N) :
  RequestId.bytes16 random ->
  RequestId.bytes_of_id (RequestId.getRequestId None random)
  = RequestId.update 8 RequestId.set_variant
      (RequestId.update 6 RequestId.set_version random).
Proof.
  intros [Hlen Hall]. name_bytes random Hlen Hall.
  unfold RequestId.getRequestId, RequestId.slice_join.
  cbn [RequestId.update List.map Nat.sub skipn firstn List.concat app].
  spell_bytes.
  unfold RequestId.bytes_of_id.
  change (lit "-") with [45%N]. cbn [app].
  repeat first [ rewrite keep_digit by first [assumption | reflexivity]
               | rewrite drop_hyphen ].
  cbn [filter RequestId.read_pairs].
  repeat match goal with
         | H : (_ * 16 + _)%N = _ |- _ => rewrite H; clear H
         end.
  reflexivity.
Qed.

Lemma getRequestId_spells_bytes_witness :
  RequestId.bytes_of_id
    (RequestId.getRequestId None (List.map N.of_nat (seq 240 16)))
  = RequestId.update 8 RequestId.set_variant
      (RequestId.update 6 RequestId.set_version (List.map N.of_nat (seq 240 16))).
Proof.
  apply getRequestId_spells_bytes. split; [reflexivity|].
  repeat constructor.
Defined.

Example getRequestId_sample :
  RequestId.getRequestId None (List.map N.of_nat (seq 0 16))
  = lit "00010203-0405-4607-8809-0a0b0c0d0e0f"
  /\ RequestId.getRequestId (Some (lit "id")) [] = lit "id".
Proof. split; reflexivity. Qed.

(** ** The background reply *)

Lemma background_run (net : Background.sendNetwork) (token : jsstring)
    (chatId : Z) (msg : jsstring) :
  let run := Background.background net token chatId msg in
  snd run = Ok tt
  /\ Background.posts (fst run) = [Background.request_for token chatId msg]
  /\ List.length (Background.console_lines (fst run)) = 1.
Proof.
  unfold Background.background, Background.sendMessage.
  destruct (net _) as [res|]; [|repeat split].
  destruct (negb (Background.ok res)
            || Background.reports_failure (Background.read_body res));
    repeat split.
Qed.

(** X8: the work handed to [waitUntil] never rejects: whatever the network
    does it makes one POST, to the sendMessage method of the bot's token
    with the chat, the text and previews off, and writes one console line. *)
Theorem background_settles (net : Background.sendNetwork) (token : jsstring)
    (chatId : Z) (msg : jsstring) :
  let run := Background.background net token chatId msg in
  snd run = Ok tt
  /\ Background.posts (fst run)
     = [{| Background.send_url :=
             lit "https://api.telegram.org/bot" ++ token ++ lit "/sendMessage";
           Background.send_chat_id := chatId;
           Background.send_text := msg;
           Background.send_disable_web_page_preview := true |}]
  /\ List.length (Background.console_lines (fst run)) = 1.
Proof.
  unfold Background.background, Background.sendMessage, Background.request_for.
  unfold TELEGRAM_API. rewrite <- app_assoc.
  destruct (net _) as [res|]; [|repeat split].
  destruct (negb (Background.ok res)
            || Background.reports_failure (Background.read_body res));
    repeat split.
Qed.

(** X9: which line the reply writes.  It is the success line exactly when
    a response came with [res.ok] and not a JSON body whose [ok] is false; a
    body that cannot be read counts as no complaint.  It is the failure line
    with the response's status otherwise, and the "threw" line exactly when
    [fetch] rejected. *)
Theorem background_verdict (net : Background.sendNetwork) (token : jsstring)
    (chatId : Z) (msg : jsstring) :
  let log := fst (Background.background net token chatId msg) in
  let r := Background.request_for token chatId msg in
  let complains res :=
    Background.is_json res = true
    /\ Background.json res = Background.JsonValue true in
  (In Background.LogSendOk log
   <-> exists res, net r = Some res /\ Background.ok res = true /\ ~ complains res)
  /\ (forall s, In (Background.ErrorSendFailed s) log
      <-> exists res, net r = Some res /\ Background.status res = s
                      /\ (Background.ok res = false \/ complains res))
  /\ (forall e, In (Background.ErrorSendThrew e) log
      <-> net r = None /\ e = NetworkError).
Proof.
  intros log r complains. subst log complains.
  unfold Background.background, Background.sendMessage. fold r.
  destruct (net r) as [res|] eqn:En.
  - assert (Hc : Background.reports_failure (Background.read_body res) = true
                 <-> (Background.is_json res = true
                      /\ Background.json res = Background.JsonValue true)).
    { unfold Background.read_body.
      destruct (Background.is_json res), (Background.json res) as [|[]],
        (Background.text res); simpl; intuition congruence. }
    assert (Hf : negb (Background.ok res)
                 || Background.reports_failure (Background.read_body res) = true
                 <-> (Background.ok res = false
                      \/ (Background.is_json res = true
                          /\ Background.json res = Background.JsonValue true))).
    { rewrite orb_true_iff, negb_true_iff, Hc. tauto. }
    destruct (negb (Background.ok res)
              || Background.reports_failure (Background.read_body res)) eqn:Ef.
    + pose proof (proj1 Hf eq_refl) as Hbad. split; [|split].
      * split.
        -- intros [H|[H|[]]]; discriminate.
        -- intros (res' & E & Hok & Hno). injection E as <-.
           destruct Hbad as [Hb|Hb]; [congruence | contradiction].
      * intros s. split.
        -- intros [H|[H|[]]]; [discriminate|]. injection H as <-.
           exists res. auto.
        -- intros (res' & E & <- & _). injection E as <-. right; now left.
      * intros e. split.
        -- intros [H|[H|[]]]; discriminate.
        -- intros [H _]; discriminate.
    + assert (Hgood : ~ (Background.ok res = false
                         \/ (Background.is_json res = true
                             /\ Background.json res = Background.JsonValue true)))
        by (intros H; apply Hf in H; discriminate).
      split; [|split].
      * split.
        -- intros _. exists res. split; [reflexivity|]. split.
           ++ destruct (Background.ok res); [reflexivity | tauto].
           ++ tauto.
        -- intros _. right; now left.
      * intros s. split.
        -- intros [H|[H|[]]]; discriminate.
        -- intros (res' & E & _ & Hb). injection E as <-. contradiction.
      * intros e. split.
        -- intros [H|[H|[]]]; discriminate.
        -- intros [H _]; discriminate.
  - split; [|split].
    + split.
      * intros [H|[H|[]]]; discriminate.
      * intros (res' & E & _); discriminate.
    + intros s. split.
      * intros [H|[H|[]]]; discriminate.
      * intros (res' & E & _); discriminate.
    + intros e. split.
      * intros [H|[H|[]]]; [discriminate|]. injection H as <-. auto.
      * intros [_ ->]. right; now left.
Qed.

Example background_api_error :
  let net := fun _ =>
    Some {| Background.ok := true; Background.status := 200;
            Background.content_type := Some (lit "application/json; charset=utf-8");
            Background.json := Background.JsonValue true;
            Background.text := None; Background.text_again := None |} in
  Background.console_lines (fst (Background.background net (lit "t") 42 (lit "Hello there")))
  = [Background.ErrorSendFailed 200].
Proof. reflexivity. Qed.

Lemma authorized_dec (env : Bindings) (req : Request) :
  authorized env req \/ ~ authorized env req.
Proof.
  destruct (truthy_opt (WEBHOOK_SECRET_TOKEN env)
            && strict_neq (secret_header req) (WEBHOOK_SECRET_TOKEN env)) eqn:E.
  - right. intros H. apply secret_check in H. congruence.
  - left. now apply secret_check.
Qed.

(** X10: when a request leads to a reply.  The receiver hands a task to
    [waitUntil] exactly when the request passes the secret check, its body
    parses, and the payload it settles on has a chat; the task is then the
    one reply to that chat with the greeting of the payload's sender, there
    is never a second one, and running it posts that chat and that text. *)
Theorem webhook_reply_exactly_when
    (parseJson : jsstring -> option decoded) (reqId : jsstring)
    (env : Bindings) (req : Request) :
  let evs := events (webhook parseJson reqId env req) in
  (forall t, In (WaitUntil t) evs
     <-> authorized env req
         /\ exists u m ch,
              parseJson (req_body req) = Some (Update u) /\ selected u = Some m
              /\ chat m = Some ch
              /\ t = SendMessageTask (BOT_API_TOKEN env) (chat_id ch)
                       (buildGreeting (from m)))
  /\ List.length (scheduled evs) <= 1
  /\ (forall net token chatId greeting,
        In (SendMessageTask token chatId greeting) (scheduled evs) ->
        Background.posts (fst (Background.run_task net
                                 (SendMessageTask token chatId greeting)))
        = [Background.request_for token chatId greeting]).
Proof.
  intros evs. subst evs.
  assert (Hrun : forall net token chatId greeting,
             Background.posts (fst (Background.run_task net
                                      (SendMessageTask token chatId greeting)))
             = [Background.request_for token chatId greeting])
    by (intros; apply background_run).
  destruct (authorized_dec env req) as [Ha|Hn].
  - destruct (parseJson (req_body req)) as [[|u]|] eqn:Hp.
    + rewrite (webhook_null _ reqId Ha Hp).
      split; [|split; [simpl; lia | intros; apply Hrun]].
      intros t. split.
      * intros [H|[]]; discriminate.
      * intros (_ & u' & m' & ch' & Hu & _). discriminate.
    + rewrite (webhook_parsed _ reqId Ha Hp). unfold reply_to.
      destruct (selected u) as [m|] eqn:Hs; [destruct (chat m) as [ch|] eqn:Hc|].
      * split; [|split; [simpl; lia | intros; apply Hrun]].
        intros t. split.
        -- intros [H|[H|[H|[]]]]; try discriminate. injection H as <-.
           split; [exact Ha|]. exists u, m, ch. auto.
        -- intros (_ & u' & m' & ch' & Hu & Hm & Hch & ->).
           injection Hu as <-. rewrite Hs in Hm. injection Hm as <-.
           rewrite Hc in Hch. injection Hch as <-. right; now left.
      * split; [|split; [simpl; lia | intros; apply Hrun]].
        intros t. split.
        -- intros [H|[H|[]]]; discriminate.
        -- intros (_ & u' & m' & ch' & Hu & Hm & Hch & _).
           injection Hu as <-. rewrite Hs in Hm. injection Hm as <-.
           congruence.
      * split; [|split; [simpl; lia | intros; apply Hrun]].
        intros t. split.
        -- intros [H|[H|[]]]; discriminate.
        -- intros (_ & u' & m' & ch' & Hu & Hm & _).
           injection Hu as <-. congruence.
    + rewrite (webhook_unparsed _ reqId Ha Hp).
      split; [|split; [simpl; lia | intros; apply Hrun]].
      intros t. split.
      * intros [H|[H|[]]]; discriminate.
      * intros (_ & u' & m' & ch' & Hu & _). discriminate.
  - rewrite (webhook_unauthorized _ reqId Hn).
    split; [|split; [simpl; lia | intros; apply Hrun]].
    intros t. split.
    + intros [H|[]]; discriminate.
    + intros [H _]. contradiction.
Qed.

(** ** configureWebhook and the set-webhook route *)

(** X11: the cold-start initializer always calls deleteWebhook first, with
    pending updates dropped, and then setWebhook exactly when BASE_URL is
    non-empty after its trailing slash is removed; whether the first call
    succeeds, fails or rejects changes nothing in what is called. *)
Theorem configureWebhook_delete_then_set (env : Bindings) (net : network) :
  fetches (events (configureWebhook env net))
  = deleteWebhook_call env
    :: match option_map dropTrailingSlash (BASE_URL env) with
       | Some (c :: b) => [setWebhook_call env (c :: b)]
       | _ => []
       end.
Proof.
  unfold configureWebhook, deleteWebhook_call, setWebhook_call, fetch.
  destruct (option_map dropTrailingSlash (BASE_URL env)) as [[|c b]|];
    repeat match goal with
           | |- context [net ?r] =>
               destruct (net r) as [[[] ? [| |[]] [?|]]|]
           end;
    reflexivity.
Qed.

(** X12: the set-webhook route answers 200 exactly when BASE_URL is
    non-empty and the setWebhook call came back with [res.ok] and a JSON
    body whose [ok] is true; 400 exactly when BASE_URL is missing or empty,
    and then nothing is called; otherwise the one call it makes is the
    setWebhook call for BASE_URL without its trailing slash. *)
Theorem set_webhook_answers (env : Bindings) (net : network) :
  let run := set_webhook env net in
  (outcome run = Ok {| status := 200; body := JsonResult |}
   <-> exists base res,
         BASE_URL env = Some base /\ base <> []
         /\ net (setWebhook_call env (dropTrailingSlash base)) = Some res
         /\ res_ok res = true /\ res_json res = JsonData true)
  /\ (outcome run
      = Ok {| status := 400; body := JsonError (lit "BASE_URL not configured") |}
      <-> truthy_opt (BASE_URL env) = false)
  /\ fetches (events run)
     = match BASE_URL env with
       | Some (c :: b) => [setWebhook_call env (dropTrailingSlash (c :: b))]
       | _ => []
       end.
Proof.
  intros run. subst run. unfold set_webhook, fetch.
  destruct (BASE_URL env) as [[|c b]|] eqn:Eb.
  - repeat split; try discriminate; try reflexivity.
    intros (base & res & E & Hne & _). congruence.
  - cbv zeta.
    match goal with |- context [net ?r] => set (R := r) end.
    assert (HR : R = setWebhook_call env (dropTrailingSlash (c :: b)))
      by reflexivity.
    clearbody R. rewrite <- HR.
    assert (Hback : forall base res,
               Some (c :: b) = Some base ->
               net (setWebhook_call env (dropTrailingSlash base)) = Some res ->
               net R = Some res)
      by (intros base res E Hn; injection E as <-; now rewrite HR).
    destruct (net R) as [[[] st [| |[]] [t|]]|] eqn:En; simpl;
      (split; [|split; [split; discriminate | reflexivity]]);
      (split;
       [ try discriminate; intros _; exists (c :: b); eexists;
         (split; [reflexivity|]); (split; [discriminate|]);
         (split; [rewrite <- HR; exact En|]); split; reflexivity
       | intros (base & res & E & _ & Hn & Hok & Hj);
         pose proof (Hback _ _ E Hn) as Hn';
         try discriminate; injection Hn' as <-;
         simpl in *; try discriminate; reflexivity ]).
  - repeat split; try discriminate; try reflexivity.
    intros (base & res & E & _). discriminate.
Qed.

Lemma cut_at_slash (c : N) (r s : jsstring) :
  c <> 47%N ->
  match c :: r with
  | 47%N :: r' => rev r'
  | _ => s
  end = s.
Proof.
  intros H. destruct c as [|p]; [reflexivity|].
  do 6 (try destruct p as [p|p|]); try reflexivity. congruence.
Qed.

Lemma dropTrailingSlash_none (b : jsstring) :
  Env.ends_with 47 b = false -> dropTrailingSlash b = b.
Proof.
  unfold Env.ends_with, dropTrailingSlash. destruct (rev b) as [|c r]; simpl.
  - reflexivity.
  - intros H. apply N.eqb_neq in H. now apply cut_at_slash.
Qed.

Lemma dropTrailingSlash_one (b : jsstring) : dropTrailingSlash (b ++ [47%N]) = b.
Proof.
  unfold dropTrailingSlash. rewrite rev_app_distr. simpl. apply rev_involutive.
Qed.

Lemma registration_by_base (env : Bindings) (net : network)
    (base base' : jsstring) :
  base <> [] -> base' <> [] ->
  dropTrailingSlash base = dropTrailingSlash base' ->
  set_webhook (with_base_url env (Some base)) net
  = set_webhook (with_base_url env (Some base')) net
  /\ configureWebhook (with_base_url env (Some base)) net
     = configureWebhook (with_base_url env (Some base')) net.
Proof.
  intros H H' E. destruct base as [|c b], base' as [|c' b']; try congruence.
  unfold set_webhook, configureWebhook.
  cbn [with_base_url BASE_URL BOT_API_TOKEN WEBHOOK_SECRET_TOKEN option_map].
  rewrite E. split; reflexivity.
Qed.

(** X13: a trailing slash on BASE_URL makes no difference to either
    registration path, and both register the same thing: for a base that is
    non-empty and does not itself end in a slash, the route and the
    cold-start initializer behave the same with and without the slash, and
    the initializer's calls are deleteWebhook followed by the route's one
    call. *)
Theorem registration_ignores_trailing_slash (env : Bindings) (net : network)
    (b : jsstring) :
  b <> [] ->
  Env.ends_with 47 b = false ->
  let plain := with_base_url env (Some b) in
  let slashed := with_base_url env (Some (b ++ lit "/")) in
  set_webhook slashed net = set_webhook plain net
  /\ configureWebhook slashed net = configureWebhook plain net
  /\ fetches (events (configureWebhook plain net))
     = deleteWebhook_call plain :: fetches (events (set_webhook plain net)).
Proof.
  intros Hne Hb plain slashed. subst plain slashed.
  pose proof (dropTrailingSlash_none _ Hb) as E0.
  assert (E : dropTrailingSlash (b ++ lit "/") = dropTrailingSlash b)
    by (rewrite E0; apply dropTrailingSlash_one).
  destruct (@registration_by_base env net (b ++ lit "/") b) as [H1 H2];
    [destruct b; discriminate | exact Hne | exact E |].
  split; [exact H1|]. split; [exact H2|].
  unfold configureWebhook, set_webhook, deleteWebhook_call, fetch.
  destruct b as [|c b]; [congruence|].
  cbn [with_base_url BASE_URL BOT_API_TOKEN WEBHOOK_SECRET_TOKEN option_map].
  rewrite !E0.
  repeat match goal with
         | |- context [net ?r] =>
             destruct (net r) as [[[] ? [| |[]] [?|]]|]
         end;
    reflexivity.
Qed.

Lemma registration_ignores_trailing_slash_witness :
  let env := Demo.env_with_secret (Some (lit "S1")) in
  let b := lit "https://bot.example.workers.dev" in
  set_webhook (with_base_url env (Some (b ++ lit "/"))) Demo.online
  = set_webhook (with_base_url env (Some b)) Demo.online
  /\ configureWebhook (with_base_url env (Some (b ++ lit "/"))) Demo.online
     = configureWebhook (with_base_url env (Some b)) Demo.online
  /\ fetches (events (configureWebhook (with_base_url env (Some b)) Demo.online))
     = deleteWebhook_call (with_base_url env (Some b))
       :: fetches (events (set_webhook (with_base_url env (Some b)) Demo.online)).
Proof.
  apply registration_ignores_trailing_slash; [discriminate | reflexivity].
Defined.

(** The two paths part ways on a BASE_URL that is a lone slash: the route
    registers the path alone, the initializer skips registration. *)
Example registration_lone_slash :
  let env := with_base_url (Demo.env_with_secret None) (Some (lit "/")) in
  fetches (events (set_webhook env Demo.online))
  = [setWebhook_call env []]
  /\ fetches (events (configureWebhook env Demo.online))
     = [deleteWebhook_call env].
Proof. split; reflexivity. Qed.

(** ** The process *)

Lemma middleware_calls (env : Bindings) (net : network) (p : process) :
  latch_ok p ->
  configureCalls (middleware env net p)
  = if Nat.eqb (configureCalls p) 1 || auto_init_enabled env then 1 else 0.
Proof.
  unfold middleware. intros [[Hc Hp] | [Hc Hp]]; rewrite Hc.
  - rewrite Hp. simpl. destruct (auto_init_enabled env); simpl; [|congruence].
    destruct (until_first_fetch (events (configureWebhook env net))).
    simpl. congruence.
  - simpl. destruct Hp as [[later ->] | ->]; rewrite andb_false_r; exact Hc.
Qed.

Lemma step_calls (parseJson : jsstring -> option decoded) (p : process)
    (i : input) :
  latch_ok p ->
  configureCalls (fst (step parseJson p i))
  = if Nat.eqb (configureCalls p) 1 || enabled_request i then 1 else 0.
Proof.
  intros H. destruct i as [env net reqId req|]; simpl.
  - assert (E : configureCalls (if reaches_middleware req
                                then middleware env net p else p)
                = if Nat.eqb (configureCalls p) 1
                     || (reaches_middleware req && auto_init_enabled env)
                  then 1 else 0).
    { destruct (reaches_middleware req).
      - apply (middleware_calls env net H).
      - rewrite orb_false_r. destruct H as [[-> _] | [-> _]]; reflexivity. }
    rewrite <- E.
    destruct (route parseJson reqId env net req); reflexivity.
  - rewrite orb_false_r.
    assert (E : configureCalls (settle p) = configureCalls p).
    { unfold settle. destruct (webhookInitPromise p) as [[later [[]|]|]|]; reflexivity. }
    rewrite E. destruct H as [[-> _] | [-> _]]; reflexivity.
Qed.

Lemma run_calls (parseJson : jsstring -> option decoded)
    (inputs : list input) (p : process) :
  latch_ok p ->
  configureCalls (run parseJson p inputs)
  = if Nat.eqb (configureCalls p) 1 || existsb enabled_request inputs
    then 1 else 0.
Proof.
  revert p. induction inputs as [|i rest IH]; intros p H; simpl.
  - rewrite orb_false_r. destruct H as [[-> _] | [-> _]]; reflexivity.
  - rewrite (IH _ (step_latch parseJson i H)), (step_calls parseJson i H).
    destruct (Nat.eqb (configureCalls p) 1), (enabled_request i); reflexivity.
Qed.

(** X14: how often the initializer runs in a process: once if some request
    other than a GET of [/] arrived with the cold-start flag on, never
    otherwise.  The health route is registered before the middleware and
    never starts it; settlements, the other routes hit and the network's
    answers do not matter. *)
Theorem configureWebhook_runs_iff_enabled
    (parseJson : jsstring -> option decoded) (inputs : list input) :
  configureCalls (run parseJson cold_start inputs)
  = if existsb enabled_request inputs then 1 else 0.
Proof.
  rewrite run_calls by (left; split; reflexivity). reflexivity.
Qed.

Lemma lowerUnit_letter (x c : N) :
  (97 <= x <= 122)%N -> lowerUnit c = x <-> either_case x c.
Proof.
  intros Hx. unfold lowerUnit, either_case.
  destruct (N.leb 65 c) eqn:E1, (N.leb c 90) eqn:E2; simpl;
    try apply N.leb_le in E1; try apply N.leb_le in E2;
    try apply N.leb_gt in E1; try apply N.leb_gt in E2; lia.
Qed.

(** X15: the values of AUTO_WEBHOOK_INIT that turn the cold-start path on
    are the sixteen spellings of [true] in upper and lower case and no
    others: not an unset or empty variable, not [1] or [yes], not [true]
    with white space around it. *)
Theorem auto_init_enabled_iff (env : Bindings) :
  auto_init_enabled env = true
  <-> exists t r u e,
        AUTO_WEBHOOK_INIT env = Some [t; r; u; e]
        /\ either_case 116 t /\ either_case 114 r
        /\ either_case 117 u /\ either_case 101 e.
Proof.
  unfold auto_init_enabled. rewrite str_eqb_eq. split.
  - destruct (AUTO_WEBHOOK_INIT env) as [[|t [|r [|u [|e [|x s]]]]]|];
      simpl; try discriminate.
    intros H. injection H as Ht Hr Hu He.
    exists t, r, u, e. split; [reflexivity|].
    repeat split; apply lowerUnit_letter; (lia || assumption).
  - intros (t & r & u & e & -> & Ht & Hr & Hu & He). simpl.
    apply lowerUnit_letter in Ht, Hr, Hu, He; try lia.
    unfold toLowerCase. simpl. now rewrite Ht, Hr, Hu, He.
Qed.

(** ** The status check against the worker *)

Lemma webhook_status (parseJson : jsstring -> option decoded)
    (reqId : jsstring) (env : Bindings) (req : Request) (u : TelegramUpdate) :
  parseJson (req_body req) = Some (Update u) ->
  exists r, outcome (webhook parseJson reqId env req) = Ok r
            /\ (authorized env req -> status r = 200%N)
            /\ (~ authorized env req -> status r = 401%N).
Proof.
  intros Hp. destruct (authorized_dec env req) as [Ha|Hn].
  - rewrite (webhook_parsed _ reqId Ha Hp). unfold reply_to.
    destruct (selected u) as [m|]; [destruct (chat m)|];
      (eexists; split; [reflexivity|]; split; [reflexivity | tauto]).
  - rewrite (webhook_unauthorized _ reqId Hn).
    eexists; split; [reflexivity|]; split; [tauto | reflexivity].
Qed.

(** X16: the status script's check set against the worker's receiver.
    Suppose BASE_URL is set, JSON parsing reads the two probe bodies as
    objects, and a POST to BASE_URL followed by [/webhook] that carries a
    JSON content type, a secret header and a probe body is answered with
    the status the receiver gives to that probe delivered as sent (a POST of
    [/webhook] with the header value and body unchanged).  Then the check
    passes exactly when script and worker hold the same secret, an empty one
    counting as none, and that secret is not the text [__invalid__], which
    the check sends as its wrong value. *)
Theorem check_against_worker (World : Type)
    (fetchJson : jsstring -> Status.fetchOptions -> World -> Status.fetchResult * World)
    (parseJson : jsstring -> option decoded) (env : Bindings)
    (reqId baseUrl : jsstring) (secret : option jsstring) (w : World) :
  baseUrl <> [] ->
  (exists u, parseJson (Status.stringify_update_id 1) = Some (Update u)) ->
  (exists u, parseJson (Status.stringify_update_id 2) = Some (Update u)) ->
  (forall header n w' r,
     outcome (webhook parseJson reqId env (delivered_probe header n)) = Ok r ->
     Status.status
       (fst (fetchJson (baseUrl ++ lit "/webhook")
               {| Status.method := POST;
                  Status.headers :=
                    [(lit "Content-Type", lit "application/json");
                     (lit "X-Telegram-Bot-Api-Secret-Token", header)];
                  Status.body := Some (Status.stringify_update_id n) |} w'))
     = status r) ->
  Status.check_ok (fst (Status.checkWebhookSecret fetchJson baseUrl secret w)) = true
  <-> nonempty (WEBHOOK_SECRET_TOKEN env) = nonempty secret
      /\ nonempty secret <> Some (lit "__invalid__").
Proof.
  intros Hb [u1 Hp1] [u2 Hp2] Relay.
  rewrite (check_verdict fetchJson secret w Hb).
  cbn [fst Status.check_ok].
  set (good_req := delivered_probe (or_else secret []) 1) in *.
  set (bad_req := delivered_probe (lit "__invalid__") 2) in *.
  destruct (@webhook_status parseJson reqId env good_req u1 Hp1)
    as (rg & Eg & G200 & G401).
  destruct (@webhook_status parseJson reqId env bad_req u2 Hp2)
    as (rb & Eb & B200 & B401).
  unfold Status.good_call, Status.bad_call, Status.probe.
  rewrite (Relay _ _ _ rg Eg), (Relay _ _ _ rb Eb). clear Relay Eg Eb.
  assert (Sg : status rg = 200%N <-> authorized env good_req).
  { split; [|exact G200]. intros H.
    destruct (authorized_dec env good_req) as [Ha|Hn]; [exact Ha|].
    apply G401 in Hn. congruence. }
  assert (Sb : status rb = 200%N <-> authorized env bad_req).
  { split; [|exact B200]. intros H.
    destruct (authorized_dec env bad_req) as [Ha|Hn]; [exact Ha|].
    apply B401 in Hn. congruence. }
  assert (Sb' : status rb = 401%N <-> ~ authorized env bad_req).
  { split; [|exact B401]. intros H Ha. apply B200 in Ha. congruence. }
  destruct (truthy_opt secret) eqn:Et; rewrite andb_true_iff, !N.eqb_eq;
    rewrite Sg, ?Sb, ?Sb'; clear Sg Sb Sb' G200 G401 B200 B401 rg rb;
    unfold authorized, good_req, bad_req; clear good_req bad_req;
    cbn [secret_header delivered_probe];
    destruct (WEBHOOK_SECRET_TOKEN env) as [[|wc ws]|];
    destruct secret as [[|sc ss]|];
    cbn [truthy_opt truthy or_else nonempty] in *;
    intuition (try discriminate; try congruence);
    match goal with
    | H0 : Some ?w = Some ?s, H1 : Some ?s = Some ?i -> False,
      H3 : Some ?i = Some ?w |- _ =>
        apply H1; rewrite <- H0; exact (eq_sym H3)
    end.
Qed.

Lemma check_against_worker_witness :
  let env := Demo.env_with_secret (Some (lit "S1")) in
  Status.check_ok
    (fst (Status.checkWebhookSecret (Demo.serve env)
            (lit "https://bot.example.workers.dev") (Some (lit "S1")) tt)) = true
  <-> nonempty (WEBHOOK_SECRET_TOKEN env) = nonempty (Some (lit "S1"))
      /\ nonempty (Some (lit "S1")) <> Some (lit "__invalid__").
Proof.
  apply (@check_against_worker unit
           (Demo.serve (Demo.env_with_secret (Some (lit "S1"))))
           Demo.parseProbe (Demo.env_with_secret (Some (lit "S1")))
           (lit "req-1")).
  - discriminate.
  - exists (bare_update 1). reflexivity.
  - exists (bare_update 2). reflexivity.
  - intros header n w' r H. unfold Demo.serve.
    change (outcome (webhook Demo.parseProbe (lit "req-1")
                       (Demo.env_with_secret (Some (lit "S1")))
                       (delivered_probe header n)) = Ok r) in H.
    change (Demo.post_webhook _ _) with (delivered_probe header n).
    rewrite H. reflexivity.
Defined.

(** A worker and a script that agree on the secret [__invalid__] fail the
    check: the wrong value it sends is then the right one. *)
Example check_with_invalid_as_secret :
  Status.check_ok
    (fst (Status.checkWebhookSecret
            (Demo.serve (Demo.env_with_secret (Some (lit "__invalid__"))))
            (lit "https://bot.example.workers.dev")
            (Some (lit "__invalid__")) tt)) = false.
Proof. reflexivity. Qed.

(** ** The trigger script *)




(** An empty value, quoted or not, hands the choice to the process
    environment; so does a value of blanks. *)
Example trigger_empty_value :
  let procBase := Some (lit "https://other.dev/") in
  Trigger.base_url (Some (lit "BASE_URL=" ++ dquote ++ dquote)) procBase
  = lit "https://other.dev"
  /\ Trigger.base_url (Some (lit "BASE_URL=   ")) procBase = lit "https://other.dev"
  /\ Trigger.base_url (Some (lit "BASE_URL=https://x.dev")) procBase
     = lit "https://x.dev"
  /\ Trigger.run (Some (lit "BASE_URL=")) None (fun _ => None) = ([], 1%N).
Proof. repeat split. Qed.

(** X18: the trigger script ends with exit code 0 exactly when it has a
    base URL, the GET of [/set-webhook] came back, its body could be read
    in the way its content type asks for, and [res.ok] holds; in every other
    case the code is 1.  It makes one request, or none without a base URL. *)
Theorem trigger_exit_code (net : Trigger.network) (base : jsstring) :
  let run := Trigger.main net base in
  (snd run = 0%N
   <-> base <> []
       /\ exists res, net (base ++ lit "/set-webhook") = Some res
                      /\ Trigger.body_reads res = true
                      /\ Trigger.ok res = true)
  /\ (snd run <> 0%N -> snd run = 1%N)
  /\ fst run = match base with
               | [] => []
               | _ => [base ++ lit "/set-webhook"]
               end.
Proof.
  intros run. subst run. unfold Trigger.main.
  destruct base as [|c b]; simpl negb; cbv iota.
  - split; [|split; [reflexivity|reflexivity]].
    split; [discriminate | intros [H _]; congruence].
  - destruct (net _) as [res|] eqn:En.
    + destruct (Trigger.body_reads res) eqn:Er, (Trigger.ok res) eqn:Eo;
        simpl; (split; [|split; [tauto | reflexivity]]); split;
        try discriminate;
        try (intros (_ & res' & E & Hr & Ho); injection E as <-; congruence).
      intros _. split; [discriminate|]. exists res. auto.
    + split; [|split; [reflexivity | reflexivity]].
      split; [discriminate|]. intros (_ & res' & E & _). discriminate.
Qed.
